(* ===== verification/_CoqProject ===== *)
-Q . S2P
Prelude.v
JsNum.v
Subgraph.v
Prices.v
Lending.v
Vault.v
Aggregator.v
Output.v
EventLoop.v
