(* ===== verification/Prelude.v ===== *)
(** * Extra Finance yield adaptor: a verification development

    The program.  [src/src/adaptors/extra-finance/index.js] is the yield
    adaptor of the Extra Finance protocol on Optimism.  Its one exported
    operation [getPoolsData] (exported as [apy]) does, in order:
    - one GraphQL request to the protocol subgraph, which returns the
      farming [vaults] and the [lendingReservePools] (lines 24-52);
    - two filters that keep the reserves and vaults whose decimal-string
      amount [totalLiquidity] / [totalLp] is a BigNumber greater than zero
      (lines 54-59);
    - the list of token addresses to price, [getTokenAddresses]
      (lines 61-76), turned into ["optimism:<address>"] coin keys and one
      HTTP request to the price service (lines 78-84);
    - the price lookup [getTokenInfo] (lines 86-89), which lower-cases the
      address and falls back to the empty object;
    - one output record per kept lending reserve (lines 91-104), whose
      numbers come from [getLendPoolTvl] and [getLendPoolApy] of
      [./compute];
    - [getAllVeloPoolInfo] of [./compute] on the unpaused kept vaults and
      one output record per vault it returns (lines 106-124);
    - the final gate [utils.keepFinite] (line 126).

    The helpers of [./compute], [../utils] and [../../helper/unwrapLPs]
    are not under [src/]: they are modelled from the specification
    ([spec.md] sections 4.2, 4.3 and 6) and marked so in the map.

    The library, in dependency order:
    - [Prelude] (this file): the JavaScript string operations the adaptor
      uses ([toLowerCase], template literals of arrays, [includes],
      [push]-unless-present), their lemmas, the [yield] hint and rewrite
      databases and the tactic [bool_to_prop].
    - [JsNum]: JavaScript / BigNumber numbers as exact rationals extended
      with [NaN] and the two infinities, their arithmetic with its
      NaN/Infinity rules, a setoid equality coarser than [=] with its
      [Proper] instances, [Number.isFinite], the BigNumber decimal-string
      constructor and [gt(0)] (with the lemma that it reads an integer's
      decimal string back), and the float boundary [toNumber] with its
      overflow to Infinity.
    - [Subgraph]: the records of the GraphQL answer and the two filters.
    - [Prices]: the price map as an stdpp [gmap string TokenInfo], the
      address list, the coin keys, the price URL and [getTokenInfo].
    - [Lending]: the Lending Metrics Engine ([getLendPoolTvl],
      [getLendPoolApy]) over a configuration class giving the compounding
      frequency (the spec leaves its value open).
    - [Vault]: the Leverage Vault Metrics Engine [getAllVeloPoolInfo]
      over an interface class for the LP-unwrap helper and the farming
      rate, with debt-position matching and capital-weighted APY.
    - [Aggregator]: the output record, [keepFinite], the adaptor's effects
      (the two requests, their failures and their order) as a small
      reader/writer/error monad, and [getPoolsData] itself.
    - [Output]: properties of the records [getPoolsData] returns, stated
      over the model of [Aggregator]: the number of records, completeness
      and distinct keys.
    - [EventLoop]: lines 22 and 52-126 as JavaScript runs them: the heap
      of arrays (an stdpp [gmap] from locations), [pools.push], the
      synchronous [forEach] of line 91, the [async] callback of line 113
      whose promises nobody awaits, the microtask queue of the event loop,
      the copy [pools.filter(...)] makes at line 126, and the rest of the
      program running at the three [await]s (lines 52, 83, 106).

    The orchestration state machine of spec section 4.4 has no
    counterpart in the code, which runs its stages as straight-line code;
    their order is what [getPoolsData_success] and the heap-level run of
    [EventLoop] state.

    How the parts interact.  [getPoolsData] ([Aggregator]) runs the
    subgraph request, filters its answer ([Subgraph]), builds the one
    price request from the answer ([Prices]), then computes the lending
    records ([Lending]) and the vault records ([Vault]) from the two
    answers, and filters the records.  The requests are effects of the
    [IO] monad of [Aggregator]: it reads the answers from a [World],
    logs every request, and stops at the first failure.  The vault engine
    talks to its collaborators through the class [VaultOracle], the
    lending engine reads its compounding frequency from [LendingConfig],
    and the aggregator reads [utils.formatChain] from [ChainFormat]:
    every theorem holds for every instance of these interfaces.

    What the theorems show.
    - [Aggregator]: every record returned is finite (the [keepFinite]
      gate); vault records come only from unpaused vaults of positive
      [totalLp] and lending records only from reserves of positive
      [totalLiquidity]; a successful run makes exactly the subgraph
      request then one price request, and returns the finite lending
      records then the finite vault records, each in source order; a
      failed request fails the run (the subgraph failure before any price
      request); pool keys are lower-case; every token of every record was
      named in the price request.
    - [Subgraph]: on the subgraph's [BigInt] amounts (decimal strings of
      integers) the filters keep exactly the positive amounts.
    - [Output]: there is at most one record per kept reserve and unpaused
      vault, every kept reserve and every unpaused kept vault with finite
      numbers is emitted, and distinct candidate keys give distinct pool
      keys.  An empty answer still makes a price request (a finding).
    - [Prices]: the push-unless-present loop of [getTokenAddresses] equals
      a reference definition without the loop; the list holds exactly the
      needed tokens and the vault loop adds no duplicate; the lookup
      ignores case, and for a lower-case chain name every requested coin
      is read back by [getTokenInfo] under that coin lower-cased (round
      trip).
    - [Lending] and [Vault] (written from the spec): a non-negative rate
      never gives a negative APY or NaN; a vault with no matching debt
      reserve has its base TVL and its farming rate.
    - [EventLoop]: whatever the rest of the program does at the three
      [await]s, provided it mutates only arrays it holds (a frame
      condition, [respects]), the heap-level run of the record assembly
      refines [assemblePools]: every push of the [async] callback happens
      before line 126 copies the array, and [pools], being fresh, is out
      of the other code's reach; the run changes no other array of the
      caller's and resolves with a fresh one.  An example shows an
      [await] before the push deferring it past the return.

    Bounds and fuel.  Nothing in the adaptor loops without bound: the
    loops are [forEach]/[map]/[filter] over the answer's lists, modelled
    by structural recursion.  Fuel appears in [JsNum.print_digits]
    (the decimal printer of the integer amounts), whose fuel [1 + log2 n]
    exceeds the number of decimal digits of [n], and in [EventLoop.drain],
    which runs one queued segment per unit of fuel and is used only in the
    example of a deferred push.  The test data of the witnesses use a
    compounding frequency of 3 or 12 periods, which keeps [vm_compute] fast; the theorems hold for any.

    Numbers.  Amounts are BigNumber values in the code and exact
    rationals here; the conversion to a double is modelled only by its
    overflow ([toNumber] maps magnitudes above [Number.MAX_VALUE] to an
    infinity), not by its rounding, and every zero is [+0].  Strings are
    ASCII: [toLowerCase] is modelled on ASCII letters, which is what
    hexadecimal addresses use.

    Not modelled: the HTTP and GraphQL transports (their answers are
    inputs of the model and their failure is an error value);
    [utils.formatChain] (a class parameter: the spec calls it a black
    box); the LP-unwrap helper and the farming rate (fields of
    [VaultOracle], never given a body); the module imports of lines 1-12;
    the rounding of [toNumber] to a double (the installed libraries have
    no rounding of rationals to binary64 short of a float development of
    our own, and every amount the adaptor handles is exact in BigNumber);
    BigNumber's exponent limits ([1e9]) and its reading of [0x]/[0b]/[0o]
    prefixes, blanks and a leading [+] (read as NaN here: the subgraph
    never sends them); the fields no code reads ([blockNumber],
    [vaultId], [frozen], ...), which are kept in the records but play no
    part.

    An [await] is modelled as one microtask turn (its value is never a
    thenable), and a [pools.push] on an unallocated location, which the
    adaptor never performs, as a no-op.

    The development covers every operation of [index.js]; what remains
    outside is listed above and is either outside [src/] or not
    expressible without a binary64 float development. *)

From Stdlib Require Import String Ascii List Bool Arith Lia.
Import ListNotations.

Declare Scope yield_scope.
Delimit Scope yield_scope with yield.
Open Scope string_scope.

(** String concatenation as a template literal does it. *)
Notation "a +++ b" := (String.append a b)
  (at level 60, right associativity) : yield_scope.
Open Scope yield_scope.
Open Scope list_scope.

Create HintDb yield.
Create Rewrite HintDb yield_rw.

(** ** Characters and [String.prototype.toLowerCase] *)

Definition lower_ascii (c : ascii) : ascii :=
  let n := nat_of_ascii c in
  if Nat.leb 65 n && Nat.leb n 90 then ascii_of_nat (n + 32) else c.

Fixpoint toLowerCase (s : string) : string :=
  match s with
  | EmptyString => EmptyString
  | String c s' => String (lower_ascii c) (toLowerCase s')
  end.

Definition is_lower_ascii (c : ascii) : bool := Ascii.eqb (lower_ascii c) c.

Fixpoint is_lower (s : string) : bool :=
  match s with
  | EmptyString => true
  | String c s' => is_lower_ascii c && is_lower s'
  end.


(** ** Arrays of strings *)

(** [Array.prototype.toString], which a template literal [`${xs}`] calls:
    the elements joined by commas. *)
Fixpoint join (sep : string) (xs : list string) : string :=
  match xs with
  | [] => ""
  | [x] => x
  | x :: xs' => x +++ sep +++ join sep xs'
  end.

Definition array_to_string (xs : list string) : string := join "," xs.


(** [Array.prototype.includes] on strings (strict equality). *)
Definition includes (xs : list string) (x : string) : bool :=
  existsb (String.eqb x) xs.

(** [if (!result.includes(x)) result.push(x)] *)
Definition push_unique (xs : list string) (x : string) : list string :=
  if includes xs x then xs else xs ++ [x].

(** ** Lemmas *)

Lemma lower_ascii_idem (c : ascii) : lower_ascii (lower_ascii c) = lower_ascii c.
Proof. destruct c as [[] [] [] [] [] [] [] []]; reflexivity. Qed.

Lemma toLowerCase_idem (s : string) : toLowerCase (toLowerCase s) = toLowerCase s.
Proof. induction s; simpl; [reflexivity | now rewrite lower_ascii_idem, IHs]. Qed.

Lemma toLowerCase_app (s t : string) :
  toLowerCase (s +++ t) = toLowerCase s +++ toLowerCase t.
Proof. induction s; simpl; [reflexivity | now rewrite IHs]. Qed.

Lemma is_lower_iff (s : string) : is_lower s = true <-> toLowerCase s = s.
Proof.
  induction s as [|c s IH]; simpl; [tauto |].
  unfold is_lower_ascii. rewrite andb_true_iff, IH.
  destruct (Ascii.eqb_spec (lower_ascii c) c) as [E | E]; split.
  - now intros [_ ->]; rewrite E.
  - now intros H; injection H.
  - now intros [].
  - now intros H; injection H.
Qed.

Lemma toLowerCase_is_lower (s : string) : is_lower (toLowerCase s) = true.
Proof. apply is_lower_iff, toLowerCase_idem. Qed.

Lemma includes_In (xs : list string) (x : string) :
  includes xs x = true <-> In x xs.
Proof.
  unfold includes. rewrite existsb_exists. split.
  - intros [y [Hy E]]. apply String.eqb_eq in E. now subst.
  - intros H. exists x. split; [exact H | apply String.eqb_refl].
Qed.

Lemma push_unique_In (xs : list string) (x y : string) :
  In y (push_unique xs x) <-> In y xs \/ y = x.
Proof.
  unfold push_unique. destruct (includes xs x) eqn:E.
  - apply includes_In in E. split; [tauto | intros [H | ->]; assumption].
  - rewrite in_app_iff. simpl. intuition.
Qed.

Lemma push_unique_NoDup (xs : list string) (x : string) :
  NoDup xs -> NoDup (push_unique xs x).
Proof.
  unfold push_unique. destruct (includes xs x) eqn:E; [tauto |].
  intros H. apply NoDup_app; [exact H | repeat constructor; simpl; tauto |].
  intros y Hy [-> | []]. apply includes_In in Hy. congruence.
Qed.



#[export] Hint Resolve push_unique_NoDup toLowerCase_is_lower : yield.
#[export] Hint Rewrite toLowerCase_idem toLowerCase_app : yield_rw.

(** Turn the boolean tests of the code into propositions. *)
Ltac bool_to_prop :=
  repeat match goal with
    | H : (_ && _)%bool = true |- _ => apply andb_true_iff in H as [? ?]
    | H : (_ || _)%bool = false |- _ => apply orb_false_iff in H as [? ?]
    | H : negb _ = true |- _ => apply negb_true_iff in H
    | H : includes _ _ = true |- _ => apply includes_In in H
    end.




