(* ===== verification/JsNum.v ===== *)
(** * JavaScript and BigNumber numbers

    The adaptor computes with [bignumber.js] values (line 55, 58) and hands
    JavaScript numbers to [utils.keepFinite] (line 126).  Both domains hold
    the finite values, [NaN] and the two infinities; a finite value is kept
    here as an exact rational [Q] (BigNumber is exact; the double rounding
    of [toNumber] is not modelled, its overflow is).  The equality of [Q]
    is [Qeq], coarser than [=], so the numbers carry a setoid [jeq] and
    every operation is a [Proper] morphism for it. *)

From Stdlib Require Import QArith Qabs Lqa ZArith String Ascii List Bool
  Morphisms Setoid RelationClasses Lia.
From S2P Require Import Prelude.
Import ListNotations.
Open Scope Q_scope.

Inductive jsnum : Type :=
| JNum (q : Q)        (* a finite value *)
| JNaN
| JInf (neg : bool).  (* [Infinity] when [neg] is false, [-Infinity] otherwise *)

Definition qneg (q : Q) : bool := negb (Qle_bool 0 q).
Definition qzero (q : Q) : bool := Qeq_bool q 0.

(** ** Arithmetic, with the IEEE / BigNumber rules for NaN and infinities *)

Definition jadd (x y : jsnum) : jsnum :=
  match x, y with
  | JNum a, JNum b => JNum (a + b)
  | JNaN, _ | _, JNaN => JNaN
  | JInf s, JInf t => if Bool.eqb s t then JInf s else JNaN
  | JInf s, JNum _ | JNum _, JInf s => JInf s
  end.

Definition jmul (x y : jsnum) : jsnum :=
  match x, y with
  | JNum a, JNum b => JNum (a * b)
  | JNaN, _ | _, JNaN => JNaN
  | JInf s, JInf t => JInf (xorb s t)
  | JInf s, JNum b | JNum b, JInf s =>
      if qzero b then JNaN else JInf (xorb s (qneg b))
  end.

(** Division; [x / 0] is an infinity, [0 / 0] is NaN (the sign of zero is
    not modelled: every zero is [+0]). *)
Definition jdiv (x y : jsnum) : jsnum :=
  match x, y with
  | JNum a, JNum b =>
      if qzero b then (if qzero a then JNaN else JInf (qneg a))
      else JNum (a / b)
  | JNaN, _ | _, JNaN => JNaN
  | JInf _, JInf _ => JNaN
  | JNum _, JInf _ => JNum 0
  | JInf s, JNum b => if qzero b then JInf s else JInf (xorb s (qneg b))
  end.

Definition jsum (xs : list jsnum) : jsnum := fold_right jadd (JNum 0) xs.

(** [Number.isFinite] *)
Definition isFinite (x : jsnum) : bool :=
  match x with JNum _ => true | _ => false end.

(** [BigNumber.prototype.gt(0)]: false on NaN. *)
Definition gt0 (x : jsnum) : bool :=
  match x with
  | JNum q => negb (Qle_bool q 0)
  | JInf neg => negb neg
  | JNaN => false
  end.

(** [Number.MAX_VALUE] = (2^53 - 1) * 2^971. *)
Definition MAX_VALUE : Q := inject_Z ((2 ^ 53 - 1) * 2 ^ 971)%Z.

(** [BigNumber.prototype.toNumber] at the output boundary: magnitudes
    above [MAX_VALUE] overflow to an infinity of the same sign. *)
Definition toNumber (x : jsnum) : jsnum :=
  match x with
  | JNum q => if Qle_bool (Qabs q) MAX_VALUE then JNum q else JInf (qneg q)
  | _ => x
  end.

(** ** The setoid *)

Definition jeq (x y : jsnum) : Prop :=
  match x, y with
  | JNum a, JNum b => a == b
  | JNaN, JNaN => True
  | JInf s, JInf t => s = t
  | _, _ => False
  end.

Declare Scope jsnum_scope.
Delimit Scope jsnum_scope with js.
Infix "=~" := jeq (at level 70, no associativity) : jsnum_scope.
Infix "+" := jadd : jsnum_scope.
Infix "*" := jmul : jsnum_scope.
Infix "/" := jdiv : jsnum_scope.

#[export] Instance jeq_Equivalence : Equivalence jeq.
Proof.
  split.
  - intros []; simpl; reflexivity.
  - intros [] []; simpl; auto; intros H; symmetry; exact H.
  - intros [] [] []; simpl; try tauto; intros H1 H2; etransitivity; eauto.
Qed.

(** A boolean test that is stable under [Qeq] in one direction is a
    function of the [Qeq] class. *)
Lemma bool_of_Qeq (f : Q -> bool) (a b : Q) :
  (forall x y, x == y -> f x = true -> f y = true) -> a == b -> f a = f b.
Proof.
  intros Hf H. destruct (f a) eqn:Ea, (f b) eqn:Eb; auto.
  - now rewrite (Hf a b H Ea) in Eb.
  - now rewrite (Hf b a (Qeq_sym _ _ H) Eb) in Ea.
Qed.

Lemma qzero_compat (a b : Q) : a == b -> qzero a = qzero b.
Proof.
  apply bool_of_Qeq. unfold qzero. intros x y H. rewrite !Qeq_bool_iff.
  now rewrite H.
Qed.

Lemma qneg_compat (a b : Q) : a == b -> qneg a = qneg b.
Proof.
  intros H. unfold qneg. f_equal. revert H. apply bool_of_Qeq.
  intros x y H. rewrite !Qle_bool_iff. now rewrite H.
Qed.

Lemma Qle_bool_compat (a b c d : Q) : a == b -> c == d -> Qle_bool a c = Qle_bool b d.
Proof.
  intros H1 H2. rewrite (bool_of_Qeq (fun x => Qle_bool x c) a b); [| | exact H1].
  - apply bool_of_Qeq; [| exact H2]. intros x y H. rewrite !Qle_bool_iff. now rewrite H.
  - intros x y H. rewrite !Qle_bool_iff. now rewrite H.
Qed.

Ltac jnum_cases :=
  intros [a| |s] [b| |t] Hab [c| |u] [d| |v] Hcd; simpl in *;
  try contradiction; subst; try reflexivity.

#[export] Instance jadd_Proper : Proper (jeq ==> jeq ==> jeq) jadd.
Proof. jnum_cases; now rewrite Hab, Hcd. Qed.

#[export] Instance jmul_Proper : Proper (jeq ==> jeq ==> jeq) jmul.
Proof.
  jnum_cases; try (now rewrite Hab, Hcd);
    rewrite ?(qzero_compat _ _ Hab), ?(qzero_compat _ _ Hcd),
            ?(qneg_compat _ _ Hab), ?(qneg_compat _ _ Hcd); reflexivity.
Qed.

#[export] Instance jdiv_Proper : Proper (jeq ==> jeq ==> jeq) jdiv.
Proof.
  jnum_cases;
    rewrite ?(qzero_compat _ _ Hab), ?(qzero_compat _ _ Hcd),
            ?(qneg_compat _ _ Hab), ?(qneg_compat _ _ Hcd); try reflexivity.
  destruct (qzero d), (qzero b); simpl; try reflexivity; now rewrite Hab, Hcd.
Qed.

#[export] Instance isFinite_Proper : Proper (jeq ==> eq) isFinite.
Proof. intros [a| |s] [b| |t] H; simpl in *; tauto. Qed.

#[export] Instance gt0_Proper : Proper (jeq ==> eq) gt0.
Proof.
  intros [a| |s] [b| |t] H; simpl in *; try tauto; [| now subst].
  f_equal. apply Qle_bool_compat; [exact H | reflexivity].
Qed.

#[export] Instance toNumber_Proper : Proper (jeq ==> jeq) toNumber.
Proof.
  intros [a| |s] [b| |t] H; simpl in *; try tauto.
  rewrite (Qle_bool_compat (Qabs a) (Qabs b) MAX_VALUE MAX_VALUE)
    by (try apply Qabs_wd; easy).
  rewrite (qneg_compat _ _ H). destruct (Qle_bool _ _); simpl; easy.
Qed.

(** ** The BigNumber constructor on strings

    [new BigNumber(str)] accepts the strings of its [isNumeric] pattern
    (an optional minus sign; digits with an optional fraction, or a dot
    and digits; an optional exponent [e] or [E] with an optional sign
    and digits) and the names
    [Infinity], [-Infinity] and [NaN]; any other string gives NaN.  (The
    library also trims blanks and a leading [+] and reads [0x]/[0b]/[0o]
    prefixes; those forms never occur in the subgraph's decimal strings and
    are read as NaN here.) *)

Definition digit_of (c : ascii) : option Z :=
  let n := nat_of_ascii c in
  if Nat.leb 48 n && Nat.leb n 57 then Some (Z.of_nat (n - 48)) else None.

(** A maximal run of digits, accumulated onto [acc]: value, count, rest. *)
Fixpoint read_digits (s : string) (acc : Z) (cnt : nat) : Z * nat * string :=
  match s with
  | String c s' =>
      match digit_of c with
      | Some d => read_digits s' (acc * 10 + d)%Z (S cnt)
      | None => (acc, cnt, s)
      end
  | EmptyString => (acc, cnt, EmptyString)
  end.

Definition pow10 (k : Z) : Q :=
  if (0 <=? k)%Z then inject_Z (10 ^ k) else 1 # Z.to_pos (10 ^ (- k)).

(** [[+-]?\d+] up to the end of the string. *)
Definition read_exponent (s : string) : option Z :=
  let '(sgn, s1) :=
    match s with
    | String c r =>
        if (c =? "+")%char then (1%Z, r)
        else if (c =? "-")%char then ((-1)%Z, r) else (1%Z, s)
    | EmptyString => (1%Z, s)
    end in
  match read_digits s1 0 0 with
  | (v, S _, EmptyString) => Some (sgn * v)%Z
  | _ => None
  end.

(** The unsigned part of [isNumeric]: digits, fraction, exponent. *)
Definition read_unsigned (s : string) : option Q :=
  let '(ip, ni, r1) := read_digits s 0 0 in
  let '(m, nf, r2) :=
    match r1 with
    | String c r => if (c =? ".")%char then read_digits r ip 0 else (ip, 0%nat, r1)
    | EmptyString => (ip, 0%nat, r1)
    end in
  if Nat.eqb (ni + nf) 0 then None
  else
    let e :=
      match r2 with
      | EmptyString => Some 0%Z
      | String c r =>
          if (c =? "e")%char || (c =? "E")%char then read_exponent r else None
      end in
    match e with
    | Some k => Some (inject_Z m * pow10 (k - Z.of_nat nf))
    | None => None
    end.

Definition special_number (str : string) : jsnum :=
  if String.eqb str "Infinity" then JInf false
  else if String.eqb str "-Infinity" then JInf true
  else JNaN.

Definition BigNumber_of_string (str : string) : jsnum :=
  match str with
  | String c r =>
      if (c =? "-")%char then
        match read_unsigned r with
        | Some q => JNum (- q)
        | None => special_number str
        end
      else
        match read_unsigned str with
        | Some q => JNum q
        | None => special_number str
        end
  | EmptyString => JNaN
  end.

Example BigNumber_of_string_samples :
  BigNumber_of_string "1000000000000000000000" = JNum (inject_Z (10 ^ 21)) /\
  BigNumber_of_string "12.50" = JNum (1250 # 100) /\
  BigNumber_of_string "1e18" = JNum (inject_Z (10 ^ 18) * 1) /\
  BigNumber_of_string "-Infinity" = JInf true /\
  BigNumber_of_string "." = JNaN /\
  BigNumber_of_string "0x10" = JNaN.
Proof. vm_compute. repeat split. Qed.

(** ** Decimal printing of integers (the subgraph's [BigInt] strings) *)

Definition ascii_of_digit (d : Z) : ascii := ascii_of_nat (48 + Z.to_nat d).

Fixpoint print_digits (fuel : nat) (n : Z) (suffix : string) : string :=
  match fuel with
  | O => suffix
  | S f =>
      let s := String (ascii_of_digit (n mod 10)) suffix in
      if (n <? 10)%Z then s else print_digits f (n / 10) s
  end.

Definition Z_to_decimal (n : Z) : string :=
  if (n <? 0)%Z then String "-" (print_digits (S (Z.to_nat (Z.log2 (- n)))) (- n) "")
  else print_digits (S (Z.to_nat (Z.log2 n))) n "".

(** ** Lemmas on the reader *)

Lemma digit_of_ascii_of_digit (d : Z) :
  (0 <= d < 10)%Z -> digit_of (ascii_of_digit d) = Some d.
Proof.
  intros H.
  assert (d = 0 \/ d = 1 \/ d = 2 \/ d = 3 \/ d = 4 \/ d = 5 \/ d = 6 \/ d = 7
          \/ d = 8 \/ d = 9)%Z as Hd by lia.
  repeat destruct Hd as [-> | Hd]; try reflexivity; subst; reflexivity.
Qed.

Lemma read_digits_digit (c : ascii) (d : Z) (s : string) (acc : Z) (cnt : nat) :
  digit_of c = Some d ->
  read_digits (String c s) acc cnt = read_digits s (acc * 10 + d)%Z (S cnt).
Proof. intros H. simpl. now rewrite H. Qed.

Lemma read_digits_print (fuel : nat) :
  forall (n : Z) (suffix : string) (acc : Z) (cnt : nat),
  (0 < fuel)%nat -> (0 <= n < 10 ^ Z.of_nat fuel)%Z ->
  exists k, (0 < k)%nat /\
    read_digits (print_digits fuel n suffix) acc cnt
    = read_digits suffix (acc * 10 ^ Z.of_nat k + n)%Z (cnt + k).
Proof.
  induction fuel as [|f IH]; intros n suffix acc cnt Hf Hn; [lia |].
  assert (Hm : (0 <= n mod 10 < 10)%Z) by (apply Z.mod_pos_bound; lia).
  cbn [print_digits]. destruct (Z.ltb_spec n 10) as [Hlt | Hge].
  - exists 1%nat. split; [lia |].
    rewrite (read_digits_digit _ (n mod 10)) by (apply digit_of_ascii_of_digit; exact Hm).
    rewrite Z.mod_small by lia. f_equal; simpl; lia.
  - destruct f as [|f']; [rewrite Nat2Z.inj_succ, Z.pow_succ_r in Hn by lia; lia |].
    destruct (IH (n / 10)%Z (String (ascii_of_digit (n mod 10)) suffix) acc cnt)
      as [k [Hk E]]; [lia | |].
    + split; [apply Z.div_pos; lia |].
      apply Z.div_lt_upper_bound; [lia |].
      rewrite Nat2Z.inj_succ, Z.pow_succ_r in Hn by lia. lia.
    + exists (S k). split; [lia |]. rewrite E.
      rewrite (read_digits_digit _ (n mod 10)) by (apply digit_of_ascii_of_digit; exact Hm).
      rewrite Nat2Z.inj_succ, Z.pow_succ_r by lia.
      pose proof (Z.div_mod n 10). f_equal; lia.
Qed.

Lemma print_digits_fuel (n : Z) :
  (0 <= n)%Z -> (0 <= n < 10 ^ Z.of_nat (S (Z.to_nat (Z.log2 n))))%Z.
Proof.
  intros H. split; [exact H |].
  rewrite Nat2Z.inj_succ, Z2Nat.id by apply Z.log2_nonneg.
  destruct (Z.eq_dec n 0) as [-> | Hn]; [reflexivity |].
  apply Z.lt_le_trans with (2 ^ Z.succ (Z.log2 n))%Z.
  - apply Z.log2_spec. lia.
  - apply Z.pow_le_mono_l. split; [lia | lia].
Qed.

Lemma read_unsigned_print (n : Z) :
  (0 <= n)%Z ->
  exists q, read_unsigned (print_digits (S (Z.to_nat (Z.log2 n))) n "") = Some q
         /\ q == inject_Z n.
Proof.
  intros H. unfold read_unsigned.
  destruct (read_digits_print (S (Z.to_nat (Z.log2 n))) n "" 0 0)
    as [k [Hk ->]]; [lia | apply print_digits_fuel, H |].
  simpl. destruct (Nat.eqb_spec (k + 0) 0) as [E | _]; [lia |].
  eexists. split; [reflexivity |].
  unfold pow10. simpl. rewrite Qmult_1_r. apply inject_Z_injective. lia.
Qed.

Lemma BigNumber_of_string_unsigned (s : string) (q : Q) :
  read_unsigned s = Some q -> BigNumber_of_string s = JNum q.
Proof.
  destruct s as [|c r]; [discriminate |]. intros H. unfold BigNumber_of_string.
  destruct (Ascii.eqb_spec c "-") as [-> | _]; [discriminate H | now rewrite H].
Qed.

Lemma BigNumber_of_string_neg (r : string) (q : Q) :
  read_unsigned r = Some q -> BigNumber_of_string (String "-" r) = JNum (- q).
Proof. intros H. unfold BigNumber_of_string. rewrite Ascii.eqb_refl. now rewrite H. Qed.

(** ** Facts on finiteness and [gt0] *)

Lemma isFinite_JNum_iff (x : jsnum) : isFinite x = true <-> exists q, x = JNum q.
Proof. destruct x; simpl; split; intros H; try discriminate; eauto; now destruct H. Qed.

Lemma jadd_finite (x y : jsnum) :
  isFinite x = true -> isFinite y = true -> isFinite (jadd x y) = true.
Proof. destruct x, y; easy. Qed.

Lemma jmul_finite (x y : jsnum) :
  isFinite x = true -> isFinite y = true -> isFinite (jmul x y) = true.
Proof. destruct x, y; easy. Qed.

Lemma jsum_finite (xs : list jsnum) :
  Forall (fun x => isFinite x = true) xs -> isFinite (jsum xs) = true.
Proof. induction 1; simpl; auto using jadd_finite. Qed.

Lemma gt0_JNum (q : Q) : gt0 (JNum q) = true <-> 0 < q.
Proof.
  simpl. rewrite negb_true_iff. split.
  - intros H. apply Qnot_le_lt. intros Hle. apply Qle_bool_iff in Hle. congruence.
  - intros H. destruct (Qle_bool q 0) eqn:E; [| reflexivity].
    apply Qle_bool_iff in E. exfalso. apply (Qlt_not_le _ _ H E).
Qed.

#[export] Hint Resolve jadd_finite jmul_finite jsum_finite : yield.

(** ** The decimal strings of the subgraph *)

(** BigNumber reads the decimal string of every integer back
    as that integer (up to the equality of rationals): the subgraph's
    [BigInt] amounts reach the filters of [getPoolsData] unchanged. *)
Lemma BigNumber_of_string_Z_to_decimal (n : Z) :
  (BigNumber_of_string (Z_to_decimal n) =~ JNum (inject_Z n))%js.
Proof.
  unfold Z_to_decimal. destruct (Z.ltb_spec n 0) as [Hn | Hn].
  - destruct (read_unsigned_print (- n)) as [q [Hq Eq]]; [lia |].
    rewrite (BigNumber_of_string_neg _ _ Hq). simpl.
    rewrite Eq, <- inject_Z_opp, Z.opp_involutive. reflexivity.
  - destruct (read_unsigned_print n Hn) as [q [Hq Eq]].
    rewrite (BigNumber_of_string_unsigned _ _ Hq). exact Eq.
Qed.

(** [new BigNumber(s).gt(0)] on the decimal string of an
    integer holds exactly when the integer is positive. *)
Lemma gt0_Z_to_decimal (n : Z) :
  gt0 (BigNumber_of_string (Z_to_decimal n)) = (0 <? n)%Z.
Proof.
  rewrite (BigNumber_of_string_Z_to_decimal n). destruct (Z.ltb_spec 0 n) as [H | H].
  - apply gt0_JNum. rewrite Zlt_Qlt in H. exact H.
  - apply not_true_iff_false. rewrite gt0_JNum. intros Hq.
    apply Qlt_not_le in Hq. apply Hq. rewrite Zle_Qle in H. exact H.
Qed.



Lemma qzero_false (q : Q) : qzero q = false <-> ~ q == 0.
Proof.
  unfold qzero. rewrite <- Qeq_bool_iff. destruct (Qeq_bool q 0); split; congruence.
Qed.


