(* ===== verification/Subgraph.v ===== *)
(** * The subgraph answer and the two amount filters

    [getPoolsData] asks the Extra Finance subgraph for its [vaults] and
    [lendingReservePools] (index.js lines 24-52) and keeps the reserves
    whose [totalLiquidity] and the vaults whose [totalLp] is a BigNumber
    greater than zero (lines 54-59).  GraphQL returns [ID], [BigInt] and
    [BigDecimal] fields as strings and [Boolean] fields as booleans; the
    records below keep exactly that. *)

From Stdlib Require Import String List Bool ZArith.
From S2P Require Import Prelude JsNum.
Import ListNotations.

Module Subgraph.

(** One element of [vaults] (lines 25-41). *)
Record Vault := mkVault {
  v_id : string;
  vaultId : string;
  blockNumber : string;
  blockTimestamp : string;
  pair : string;
  token0 : string;
  token1 : string;
  stable : bool;
  paused : bool;
  frozen : bool;
  borrowingEnabled : bool;
  maxLeverage : string;
  totalLp : string;
  debtPositionId0 : string;
  debtPositionId1 : string
}.

(** One element of [lendingReservePools] (lines 42-50). *)
Record LendingReservePool := mkReserve {
  r_id : string;
  reserveId : string;
  underlyingTokenAddress : string;
  eTokenAddress : string;
  totalLiquidity : string;
  totalBorrows : string;
  borrowingRate : string
}.

(** The value of [await request(...)] (line 52). *)
Record QueryResult := mkQueryResult {
  vaults : list Vault;
  lendingReservePools : list LendingReservePool
}.

(** The selection set of [graphQuery] (lines 24-51), field by field. *)
Definition vault_fields : list string :=
  ["id"; "vaultId"; "blockNumber"; "blockTimestamp"; "pair"; "token0"; "token1";
   "stable"; "paused"; "frozen"; "borrowingEnabled"; "maxLeverage"; "totalLp";
   "debtPositionId0"; "debtPositionId1"].

Definition reserve_fields : list string :=
  ["id"; "reserveId"; "underlyingTokenAddress"; "eTokenAddress"; "totalLiquidity";
   "totalBorrows"; "borrowingRate"].

Definition graphQuery : string :=
  "{ vaults { " +++ join " " vault_fields +++ " }, lendingReservePools { "
  +++ join " " reserve_fields +++ " } }".

Definition extrasubgraph_url : string :=
  "https://api.thegraph.com/subgraphs/name/extrafi/extrasubgraph".

(** [subgraphUrls] (lines 15-17): one entry, for [optimism]. *)
Definition subgraphUrls (chain : string) : option string :=
  if String.eqb chain "optimism" then Some extrasubgraph_url else None.

(** [new BigNumber(item.totalLiquidity).gt(0)] (line 55). *)
Definition lendingPoolPositive (r : LendingReservePool) : bool :=
  gt0 (BigNumber_of_string (totalLiquidity r)).

(** [new BigNumber(item.totalLp).gt(0)] (line 58). *)
Definition farmingPoolPositive (v : Vault) : bool :=
  gt0 (BigNumber_of_string (totalLp v)).

Definition filteredLendingPools (q : QueryResult) : list LendingReservePool :=
  filter lendingPoolPositive (lendingReservePools q).

Definition filteredFarmingPools (q : QueryResult) : list Vault :=
  filter farmingPoolPositive (vaults q).

(** [filteredFarmingPools.filter((item) => !item.paused)] (line 107). *)
Definition unpausedFarmingPools (q : QueryResult) : list Vault :=
  filter (fun v => negb (paused v)) (filteredFarmingPools q).

Lemma In_filteredLendingPools (q : QueryResult) (r : LendingReservePool) :
  In r (filteredLendingPools q) <->
  In r (lendingReservePools q) /\ lendingPoolPositive r = true.
Proof. apply filter_In. Qed.

Lemma In_unpausedFarmingPools (q : QueryResult) (v : Vault) :
  In v (unpausedFarmingPools q) <->
  In v (vaults q) /\ farmingPoolPositive v = true /\ paused v = false.
Proof.
  unfold unpausedFarmingPools, filteredFarmingPools.
  rewrite !filter_In, negb_true_iff. tauto.
Qed.

(** C22 (functional): on the amounts the subgraph sends, decimal strings of
    integers ([BigInt]), the filters of lines 54-59 keep exactly the
    reserves whose liquidity and the vaults whose LP supply is a positive
    integer: zero and negative amounts are dropped, whatever their
    spelling, and every positive one is kept. *)
Theorem filters_decimal_amounts (q : QueryResult)
    (liq : LendingReservePool -> Z) (lp : Vault -> Z) :
  (forall r, In r (lendingReservePools q) -> totalLiquidity r = Z_to_decimal (liq r)) ->
  (forall v, In v (vaults q) -> totalLp v = Z_to_decimal (lp v)) ->
  filteredLendingPools q = filter (fun r => 0 <? liq r)%Z (lendingReservePools q) /\
  filteredFarmingPools q = filter (fun v => 0 <? lp v)%Z (vaults q).
Proof.
  intros Hl Hv. unfold filteredLendingPools, filteredFarmingPools. split; apply filter_ext_in.
  - intros r Hr. unfold lendingPoolPositive. now rewrite Hl, gt0_Z_to_decimal.
  - intros v Hin. unfold farmingPoolPositive. now rewrite Hv, gt0_Z_to_decimal.
Qed.

Module Witness.

Definition reserve_of (liquidity : string) : LendingReservePool :=
  mkReserve "r" "1" "0xT" "0xE" liquidity "0" "0".
Definition vault_of (lp : string) : Vault :=
  mkVault "v" "1" "0" "0" "0xP" "0xA" "0xB" false false false true "3" lp "" "".

(** A zero, a negative and a positive reserve, a zero and a positive vault. *)
Definition amounts_query : QueryResult :=
  mkQueryResult [vault_of "0"; vault_of "12"]
                [reserve_of "0"; reserve_of "-5"; reserve_of "1000"].

Definition amount_of (s : string) : Z :=
  if String.eqb s "1000" then 1000 else if String.eqb s "-5" then -5
  else if String.eqb s "12" then 12 else 0.

Lemma filters_decimal_amounts_witness :
  filteredLendingPools amounts_query
    = filter (fun r => 0 <? amount_of (totalLiquidity r))%Z (lendingReservePools amounts_query) /\
  filteredFarmingPools amounts_query
    = filter (fun v => 0 <? amount_of (totalLp v))%Z (vaults amounts_query).
Proof.
  apply filters_decimal_amounts.
  - intros r H. repeat destruct H as [<- | H]; [reflexivity.. | destruct H].
  - intros v H. repeat destruct H as [<- | H]; [reflexivity.. | destruct H].
Defined.

End Witness.

End Subgraph.
