(* ===== verification/Prices.v ===== *)
(** * The Price Resolver, as the adaptor uses it

    Lines 61-89 of index.js: the list of token addresses to price
    ([getTokenAddresses]), the coin keys ["<chain>:<address>"], the one
    URL of the price request, and the lookup [getTokenInfo] in the
    [coins] object of the answer.  The answer is a JavaScript object used
    as a map, modelled as an stdpp [gmap string TokenInfo]; [prices[key]
    || {}] is an [option] ([None] is the empty object). *)

From Stdlib Require Import String List Bool QArith.
From stdpp Require Import base gmap strings list.
From S2P Require Import Prelude JsNum Subgraph.
Import ListNotations.
Import Subgraph.

Module Prices.

(** One entry of [body.coins] of the price service. *)
Record TokenInfo := mkTokenInfo {
  symbol : string;
  price : Q;
  decimals : nat
}.

Abbreviation PriceMap := (gmap string TokenInfo).

(** The [coins] object of a JSON answer, from its key/value pairs. *)
Definition priceMap_of_list (entries : list (string * TokenInfo)) : PriceMap :=
  list_to_map entries.

(** [getTokenAddresses] (lines 61-75): the underlying tokens of the kept
    reserves, in order and with their repetitions, then [token0] and
    [token1] of every vault (all of [queryResult.vaults], kept or not)
    that are not yet in the list. *)
(** The body of [queryResult.vaults.forEach] (lines 66-73). *)
Definition addVaultTokens (result : list string) (item : Vault) : list string :=
  push_unique (push_unique result (token0 item)) (token1 item).

Definition getTokenAddresses (filteredLending : list LendingReservePool)
    (allVaults : list Vault) : list string :=
  fold_left addVaultTokens allVaults (map underlyingTokenAddress filteredLending).

(** [coins] (lines 78-80). *)
Definition coins (chain : string) (tokenAddresses : list string) : list string :=
  if String.eqb chain "" then tokenAddresses
  else map (fun address => chain +++ ":" +++ address) tokenAddresses.

(** The URL of the price request (line 83). *)
Definition prices_url (cs : list string) : string :=
  "https://coins.llama.fi/prices/current/" +++ array_to_string cs.

(** [getTokenInfo] (lines 86-89). *)
Definition getTokenInfo (chain : string) (prices : PriceMap) (address : string)
    : option TokenInfo :=
  prices !! (chain +++ ":" +++ toLowerCase address).

(** ** Lemmas *)

Lemma fold_push_In (vs : list Vault) (acc : list string) (x : string) :
  In x (fold_left addVaultTokens vs acc)
  <-> In x acc \/ exists v, In v vs /\ (x = token0 v \/ x = token1 v).
Proof.
  revert acc. induction vs as [|v vs IH]; intros acc; simpl.
  - split; [tauto | intros [H | [v [[] _]]]; exact H].
  - rewrite IH. unfold addVaultTokens. rewrite !push_unique_In. split.
    + intros [[[H | H] | H] | [w [Hw Hx]]]; eauto 6.
    + intros [H | [w [[<- | Hw] Hx]]]; [tauto | | eauto 6].
      destruct Hx as [-> | ->]; tauto.
Qed.

Lemma fold_push_NoDup (vs : list Vault) (acc : list string) :
  List.NoDup acc ->
  List.NoDup (fold_left addVaultTokens vs acc).
Proof.
  revert acc. induction vs as [|v vs IH]; intros acc H; simpl; [exact H |].
  apply IH. unfold addVaultTokens. auto with yield.
Qed.

(** ** A reference definition of the address list

    [getTokenAddresses] builds its list by pushing into an array inside a
    loop.  The reference below says what it builds without the loop: the
    reserves' tokens, then the vault tokens (token0 and token1 of each
    vault, in order) that are neither among those nor earlier among the
    vault tokens. *)

Definition vaultTokens (vs : list Vault) : list string :=
  flat_map (fun v => [token0 v; token1 v]) vs.

(** The elements of [xs] not in [seen], first occurrences only. *)
Fixpoint fresh (seen xs : list string) : list string :=
  match xs with
  | [] => []
  | x :: xs' => if includes seen x then fresh seen xs' else x :: fresh (seen ++ [x]) xs'
  end.

Definition tokenAddresses_ref (rs : list LendingReservePool) (vs : list Vault) : list string :=
  map underlyingTokenAddress rs ++ fresh (map underlyingTokenAddress rs) (vaultTokens vs).

Lemma fold_push_unique_fresh (xs acc : list string) :
  fold_left push_unique xs acc = acc ++ fresh acc xs.
Proof.
  revert acc. induction xs as [|x xs IH]; intros acc; simpl.
  - now rewrite app_nil_r.
  - rewrite IH. unfold push_unique. destruct (includes acc x); [reflexivity |].
    now rewrite <- app_assoc.
Qed.

Lemma fold_addVaultTokens (vs : list Vault) (acc : list string) :
  fold_left addVaultTokens vs acc = fold_left push_unique (vaultTokens vs) acc.
Proof.
  revert acc. induction vs as [|v vs IH]; intros acc; simpl; [reflexivity |].
  now rewrite IH.
Qed.

(** ** Theorems *)

(** C9 (functional): the address list holds exactly the underlying tokens of
    the kept reserves and the two tokens of every vault of the answer. *)
Theorem getTokenAddresses_In (rs : list LendingReservePool) (vs : list Vault) (x : string) :
  In x (getTokenAddresses rs vs) <->
  (exists r, In r rs /\ x = underlyingTokenAddress r) \/
  (exists v, In v vs /\ (x = token0 v \/ x = token1 v)).
Proof.
  unfold getTokenAddresses. rewrite fold_push_In, in_map_iff.
  split; intros [[r [Hx Hr]] | H]; eauto.
Qed.

(** C10 (invariant): the loop over the vaults never adds an address twice, so
    the list is free of duplicates whenever the reserves' underlying
    tokens are. *)
Theorem getTokenAddresses_NoDup (rs : list LendingReservePool) (vs : list Vault) :
  List.NoDup (map underlyingTokenAddress rs) -> List.NoDup (getTokenAddresses rs vs).
Proof. apply fold_push_NoDup. Qed.

(** Counterexample: the reserves' underlying tokens are not
    deduplicated (line 62-65 copy them as they are), so two reserves of
    the same token make the price request name that coin twice. *)
Example getTokenAddresses_duplicate :
  let r1 := mkReserve "1" "1" "0xA" "0xE1" "5" "0" "0" in
  let r2 := mkReserve "2" "2" "0xA" "0xE2" "7" "0" "0" in
  getTokenAddresses [r1; r2] [] = ["0xA"; "0xA"] /\
  ~ List.NoDup (getTokenAddresses [r1; r2] []).
Proof.
  simpl. split; [reflexivity |]. intros H. inversion H as [|x l Hx _]. apply Hx. now left.
Qed.

(** C11 (functional): the lookup ignores the case of the address: it reads the
    key built from the lower-cased address. *)
Theorem getTokenInfo_case (chain : string) (prices : PriceMap) (address : string) :
  getTokenInfo chain prices address = getTokenInfo chain prices (toLowerCase address).
Proof. unfold getTokenInfo. now autorewrite with yield_rw. Qed.

(** An address the answer does not price reads as the empty
    object, here [None]; in particular an answer keyed by the request's
    mixed-case coin is not found by [getTokenInfo]. *)
Example getTokenInfo_mixed_case_miss :
  let t := mkTokenInfo "USDC" 1 6 in
  getTokenInfo "optimism" {[ "optimism:0xAb" := t ]} "0xAb" = None /\
  getTokenInfo "optimism" {[ "optimism:0xab" := t ]} "0xAb" = Some t.
Proof. split; reflexivity. Qed.

(** C18 (roundtrip): the key [getTokenInfo] reads for an address is the
    lower-cased coin the request named for it: for a lower-case chain
    name, every coin of the request maps back to an address whose lookup
    reads exactly that coin, lower-cased, in the answer. *)
Theorem coins_lookup_key (chain : string) (prices : PriceMap) (addrs : list string) (c : string) :
  chain <> "" -> is_lower chain = true -> In c (coins chain addrs) ->
  exists a, In a addrs /\ c = chain +++ ":" +++ a /\
    getTokenInfo chain prices a = prices !! toLowerCase c.
Proof.
  intros Hne Hl Hc. unfold coins in Hc.
  destruct (String.eqb_spec chain "") as [E | _]; [contradiction |].
  apply in_map_iff in Hc as [a [<- Ha]]. exists a. split; [exact Ha |]. split; [reflexivity |].
  unfold getTokenInfo. autorewrite with yield_rw. now rewrite (proj1 (is_lower_iff chain) Hl).
Qed.

Lemma coins_lookup_key_witness :
  exists a, In a ["0xAbC"] /\ "optimism:0xAbC" = "optimism" +++ ":" +++ a /\
    getTokenInfo "optimism" (priceMap_of_list [("optimism:0xabc", mkTokenInfo "T" 1 6)]) a
    = (priceMap_of_list [("optimism:0xabc", mkTokenInfo "T" 1 6)]) !! toLowerCase "optimism:0xAbC".
Proof. apply coins_lookup_key; [discriminate | reflexivity | left; reflexivity]. Defined.

Lemma getTokenAddresses_NoDup_witness :
  List.NoDup (getTokenAddresses [mkReserve "1" "1" "0xA" "0xE1" "5" "0" "0"]
    [mkVault "v" "1" "0" "0" "0xP" "0xA" "0xB" false false false true "3" "9" "1" "2"]).
Proof. apply getTokenAddresses_NoDup. simpl. repeat constructor; simpl; tauto. Defined.

(** C14 (equivalence): the loop of [getTokenAddresses] computes the
    reference list: the reserves' tokens followed by the first occurrence
    of each vault token that is not among them. *)
Theorem getTokenAddresses_ref (rs : list LendingReservePool) (vs : list Vault) :
  getTokenAddresses rs vs = tokenAddresses_ref rs vs.
Proof. unfold getTokenAddresses, tokenAddresses_ref. now rewrite fold_addVaultTokens, fold_push_unique_fresh. Qed.

End Prices.
