(* ===== verification/Lending.v ===== *)
(** * The Lending Metrics Engine

    [getLendPoolTvl] and [getLendPoolApy] of [./compute], called on lines
    101-102 of index.js.  That file is not under [src/]: both operations
    are modelled from spec section 4.2 and scenario 8.6.  The TVL is the
    reserve's [totalLiquidity] scaled down by the token's [decimals] and
    multiplied by its price, zero when the token is unpriced.  The APY
    compounds the raw per-period [borrowingRate] over a fixed number of
    periods per year; the spec leaves that number to the protocol's
    documentation, so it is the field of a configuration class here and
    every theorem holds for any value of it. *)

From Stdlib Require Import QArith Qabs Lqa ZArith String List Bool Setoid Morphisms Lia.
From S2P Require Import Prelude JsNum Subgraph Prices.
Import ListNotations.
Import Subgraph Prices.
Open Scope Q_scope.

(** The compounding frequency of spec sections 4.2 and 9. *)
Class LendingConfig := { compounding_periods : nat }.

Module Lending.

Fixpoint qpow (q : Q) (n : nat) : Q :=
  match n with
  | O => 1
  | S n' => q * qpow q n'
  end.

(** An amount in the token's smallest unit, in USD:
    [amount / 10^decimals * price]. *)
Definition usd_value (amount : string) (t : TokenInfo) : jsnum :=
  jmul (jdiv (BigNumber_of_string amount) (JNum (pow10 (Z.of_nat (decimals t)))))
       (JNum (price t)).

Section Engine.
Context {cfg : LendingConfig}.

(** [getLendPoolTvl(poolInfo, tokenInfo)]. *)
Definition getLendPoolTvl (r : LendingReservePool) (info : option TokenInfo) : jsnum :=
  match info with
  | None => JNum 0
  | Some t => toNumber (usd_value (totalLiquidity r) t)
  end.

(** The raw rate compounded into an annual percentage. *)
Definition annualize (q : Q) : Q := (qpow (1 + q) compounding_periods - 1) * 100.

(** [getLendPoolApy(poolInfo)]: 0 for a malformed (non-finite) rate. *)
Definition getLendPoolApy (r : LendingReservePool) : jsnum :=
  match BigNumber_of_string (borrowingRate r) with
  | JNum q => toNumber (JNum (annualize q))
  | _ => JNum 0
  end.

End Engine.



Lemma qpow_ge_1 (q : Q) (n : nat) : 1 <= q -> 1 <= qpow q n.
Proof.
  intros Hq. induction n as [|n IH]; simpl; [apply Qle_refl |].
  apply Qle_trans with (1 * qpow q n); [rewrite Qmult_1_l; exact IH |].
  apply Qmult_le_compat_r; [exact Hq | lra].
Qed.









Lemma annualize_nonneg `{LendingConfig} (q : Q) : 0 <= q -> 0 <= annualize q.
Proof.
  intros Hq. unfold annualize.
  assert (1 <= qpow (1 + q) compounding_periods) by (apply qpow_ge_1; lra).
  apply Qmult_le_0_compat; lra.
Qed.

(** ** Theorems *)

Section Theorems.
Context {cfg : LendingConfig}.




(** C12 (bounds): a non-negative rate never gives a negative APY nor NaN:
    the result is a non-negative number, or [+Infinity] when the
    compounded rate exceeds [Number.MAX_VALUE]. *)
Theorem getLendPoolApy_nonneg (r : LendingReservePool) (q : Q) :
  BigNumber_of_string (borrowingRate r) = JNum q -> 0 <= q ->
  match getLendPoolApy r with
  | JNum a => 0 <= a
  | JInf neg => neg = false
  | JNaN => False
  end.
Proof.
  intros E Hq. pose proof (annualize_nonneg q Hq) as Ha.
  unfold getLendPoolApy. rewrite E. cbn [toNumber].
  destruct (Qle_bool (Qabs (annualize q)) MAX_VALUE); [exact Ha |].
  unfold qneg. destruct (Qle_bool 0 (annualize q)) eqn:F; [reflexivity |].
  apply Qle_bool_iff in Ha. congruence.
Qed.

End Theorems.

(** Scenario 8.6 of the spec: 1000 tokens of 18 decimals at $2.00. *)
Example getLendPoolTvl_scenario :
  let r := mkReserve "r" "1" "0xT" "0xE" "1000000000000000000000" "0" "0" in
  (getLendPoolTvl r
     (Some (mkTokenInfo "T" 2 18)) =~ JNum 2000)%js.
Proof. vm_compute. reflexivity. Qed.




Lemma getLendPoolApy_nonneg_witness :
  let r := mkReserve "r" "1" "0xT" "0xE" "0" "0" "0.5" in
  match getLendPoolApy (cfg := {| compounding_periods := 3 |}) r with
  | JNum a => 0 <= a
  | JInf neg => neg = false
  | JNaN => False
  end.
Proof. apply (getLendPoolApy_nonneg _ (5 # 10)); [reflexivity | discriminate]. Defined.

End Lending.
