(* ===== verification/Vault.v ===== *)
(** * The Leverage Vault Metrics Engine

    [getAllVeloPoolInfo(vaults, chain, prices, lendingReservePools)] of
    [./compute], called on lines 106-111 of index.js with the unpaused kept
    vaults and all the reserves of the subgraph answer.  [./compute] is not
    under [src/]: the engine is modelled from spec section 4.3.

    The two collaborators the spec leaves open are the fields of the
    interface class [VaultOracle]: the LP-unwrap helper of section 6 (pair
    address, LP share and the two tokens to the USD value of each token's
    part, or failure), and the vault's own farming rate.  Every theorem
    holds for every instance.

    Per vault: the base TVL is the sum of the two unwrapped values (zero
    when the unwrap fails); each of [debtPositionId0] / [debtPositionId1]
    that names a reserve adds a debt leg, the reserve's [totalBorrows] in
    USD at the price of its underlying token, with the reserve's lending
    APY; the TVL is the base plus the legs, and the APY is the average of
    the farming rate and the legs' APYs weighted by their USD amounts (the
    farming rate itself when the TVL is zero).  Vaults are processed one
    by one by a [map], so one vault's failure never touches another's
    result. *)

From Stdlib Require Import QArith Qabs Lqa ZArith String List Bool Setoid Morphisms.
From S2P Require Import Prelude JsNum Subgraph Prices Lending.
Import ListNotations.
Import Subgraph Prices Lending.
Open Scope Q_scope.

(** The collaborators of the engine (spec sections 4.3 and 6). *)
Class VaultOracle := {
  unwrapUniswapLPs : string -> jsnum -> string -> string -> option (jsnum * jsnum);
  farmingApy : Vault -> jsnum
}.

Module VaultEngine.

(** One element of the array [getAllVeloPoolInfo] resolves to. *)
Record VeloPoolInfo := mkVeloPoolInfo {
  vp_pair : string;
  vp_token0 : string;
  vp_token1 : string;
  token0_symbol : option string;
  token1_symbol : option string;
  vp_tvlUsd : jsnum;
  baseApy : jsnum
}.

Section Engine.
Context {cfg : LendingConfig} {oracle : VaultOracle}.
Variables (chain : string) (prices : PriceMap) (reserves : list LendingReservePool).

(** The reserve a debt-position identifier names. *)
Definition matchReserve (id : string) : option LendingReservePool :=
  find (fun r => String.eqb (reserveId r) id) reserves.

(** A debt leg: borrowed USD and the reserve's APY. *)
Definition debtLeg (id : string) : option (jsnum * jsnum) :=
  match matchReserve id with
  | Some r =>
      Some (match getTokenInfo chain prices (underlyingTokenAddress r) with
            | Some t => usd_value (totalBorrows r) t
            | None => JNum 0
            end, getLendPoolApy r)
  | None => None
  end.

Definition debtLegs (v : Vault) : list (jsnum * jsnum) :=
  match debtLeg (debtPositionId0 v), debtLeg (debtPositionId1 v) with
  | Some l0, Some l1 => [l0; l1]
  | Some l, None | None, Some l => [l]
  | None, None => []
  end.

(** The vault's own capital: the unwrapped value of its LP share. *)
Definition baseTvl (v : Vault) : jsnum :=
  match unwrapUniswapLPs (pair v) (BigNumber_of_string (totalLp v)) (token0 v) (token1 v) with
  | Some (a, b) => jadd a b
  | None => JNum 0
  end.

Definition vaultTvl (v : Vault) : jsnum :=
  jadd (baseTvl v) (jsum (map fst (debtLegs v))).

Definition is_zero (x : jsnum) : bool :=
  match x with JNum q => qzero q | _ => false end.

(** Capital-weighted APY. *)
Definition vaultApy (v : Vault) : jsnum :=
  let tvl := vaultTvl v in
  if is_zero tvl then farmingApy v
  else jdiv (jadd (jmul (baseTvl v) (farmingApy v))
                  (jsum (map (fun l => jmul (fst l) (snd l)) (debtLegs v)))) tvl.

Definition veloPoolInfo (v : Vault) : VeloPoolInfo :=
  {| vp_pair := pair v;
     vp_token0 := token0 v;
     vp_token1 := token1 v;
     token0_symbol := option_map symbol (getTokenInfo chain prices (token0 v));
     token1_symbol := option_map symbol (getTokenInfo chain prices (token1 v));
     vp_tvlUsd := toNumber (vaultTvl v);
     baseApy := toNumber (vaultApy v) |}.

End Engine.

(** [getAllVeloPoolInfo(vaults, chain, prices, reserves)] *)
Definition getAllVeloPoolInfo `{LendingConfig} `{VaultOracle} (vaults : list Vault)
    (chain : string) (prices : PriceMap) (reserves : list LendingReservePool)
    : list VeloPoolInfo :=
  map (veloPoolInfo chain prices reserves) vaults.

(** ** Lemmas *)

Lemma find_none_intro {A} (f : A -> bool) (l : list A) :
  (forall x, In x l -> f x = false) -> find f l = None.
Proof.
  induction l as [|x l IH]; intros H; simpl; [reflexivity |].
  rewrite (H x (or_introl eq_refl)). apply IH. intros y Hy. apply H. now right.
Qed.

Section Props.
Context {cfg : LendingConfig} {oracle : VaultOracle}.
Variables (chain : string) (prices : PriceMap) (reserves : list LendingReservePool).

Lemma matchReserve_none (id : string) :
  (forall r, In r reserves -> reserveId r <> id) -> matchReserve reserves id = None.
Proof.
  intros H. apply find_none_intro. intros r Hr.
  apply String.eqb_neq, H, Hr.
Qed.

(** ** Theorems *)

(** C13 (functional) (spec scenario 8.8): when neither debt-position
    identifier of the vault names a reserve, the TVL is the unwrapped base
    value alone and the APY is the vault's own farming rate, not mixed
    with any lending rate. *)
Theorem vault_no_debt (v : Vault) :
  (forall r, In r reserves ->
     reserveId r <> debtPositionId0 v /\ reserveId r <> debtPositionId1 v) ->
  isFinite (baseTvl v) = true -> isFinite (farmingApy v) = true ->
  (vaultTvl chain prices reserves v =~ baseTvl v)%js /\
  (vaultApy chain prices reserves v =~ farmingApy v)%js.
Proof.
  intros Hnm Hb Hf.
  assert (Hl : debtLegs chain prices reserves v = []).
  { unfold debtLegs, debtLeg.
    rewrite !matchReserve_none by (intros r Hr; apply (Hnm r Hr)). reflexivity. }
  unfold vaultApy, vaultTvl. rewrite Hl. simpl jsum.
  destruct (baseTvl v) as [b| |] eqn:Eb; try discriminate.
  destruct (farmingApy v) as [f| |] eqn:Ef; try discriminate.
  split; [simpl; ring |].
  cbn [jadd is_zero]. destruct (qzero (b + 0)) eqn:Ez; [reflexivity |].
  apply qzero_false in Ez. cbn [jmul jadd jdiv]. rewrite (proj2 (qzero_false _) Ez).
  simpl. field. intros H. apply Ez. rewrite H. ring.
Qed.



End Props.

(** ** Witnesses *)

Definition wit_cfg : LendingConfig := {| compounding_periods := 12 |}.

(** An unwrap helper that values each side at the LP share, and a flat
    farming rate of 5%. *)
Definition wit_oracle : VaultOracle :=
  {| unwrapUniswapLPs := fun _ share _ _ => Some (share, share);
     farmingApy := fun _ => JNum 5 |}.

Definition wit_reserves : list LendingReservePool :=
  [mkReserve "r1" "1" "0xTok" "0xETok" "1000" "500" "0.01"].
Definition wit_prices : PriceMap :=
  priceMap_of_list [("optimism:0xtok", mkTokenInfo "TOK" 2 2)].
Definition wit_vault (id0 id1 : string) : Vault :=
  mkVault "v1" "1" "0" "0" "0xPair" "0xTok" "0xUsd" false false false true "3" "10" id0 id1.

Lemma vault_no_debt_witness :
  (vaultTvl (cfg := wit_cfg) (oracle := wit_oracle) "optimism" wit_prices wit_reserves
     (wit_vault "7" "8") =~ baseTvl (oracle := wit_oracle) (wit_vault "7" "8"))%js /\
  (vaultApy (cfg := wit_cfg) (oracle := wit_oracle) "optimism" wit_prices wit_reserves
     (wit_vault "7" "8") =~ farmingApy (VaultOracle := wit_oracle) (wit_vault "7" "8"))%js.
Proof.
  apply vault_no_debt.
  - intros r [<- | []]. split; discriminate.
  - reflexivity.
  - reflexivity.
Defined.



End VaultEngine.
