(* ===== verification/Aggregator.v ===== *)
(** * The Pool Aggregator: [getPoolsData]

    Lines 19-127 of index.js.  The adaptor's effects are two awaited
    requests, the subgraph query (line 52) and the price request (lines
    82-84); either may reject, and a rejection propagates out of
    [getPoolsData].  They are modelled by a small monad [IO] that reads the
    answers from a [World], appends every request it makes to a log, and
    stops at the first failure.  The mutable array [pools] that both
    [forEach] loops push into is threaded explicitly ([push_all]).  The
    second loop's callback is [async] but contains no [await], so each of
    its pushes runs before [forEach] returns: the model pushes the vault
    records in order, right after the lending records ([EventLoop] proves
    this on a heap with the event loop's microtask queue). *)

From Stdlib Require Import QArith String List Bool.
From S2P Require Import Prelude JsNum Subgraph Prices Lending Vault.
Import ListNotations.
Import Subgraph Prices Lending VaultEngine.

(** [utils.formatChain], a black box for the spec (section 1). *)
Class ChainFormat := { formatChain : string -> string }.

Module Aggregator.

Definition project : string := "extra-finance".

(** [module.exports.url] (line 131). *)
Definition url : string := "https://app.extrafi.io".

(** The object pushed into [pools] (lines 94-103 and 114-123). *)
Record Pool := mkPool {
  pool : string;
  pchain : string;
  pproject : string;
  psymbol : option string;
  underlyingTokens : list string;
  poolMeta : string;
  tvlUsd : jsnum;
  apyBase : jsnum
}.

(** A template literal of a possibly undefined value. *)
Definition template_opt (o : option string) : string :=
  match o with Some s => s | None => "undefined" end.

(** [utils.keepFinite] (line 126; spec sections 3 and 4.4). *)
Definition keepFinite (p : Pool) : bool := isFinite (tvlUsd p) && isFinite (apyBase p).

(** [xs.forEach(x => pools.push(f(x)))] *)
Definition push_all {A} (f : A -> Pool) (xs : list A) (pools : list Pool) : list Pool :=
  fold_left (fun acc x => acc ++ [f x]) xs pools.

(** ** The effects *)

Inductive Request :=
| GraphQLRequest (endpoint query : string)
| HttpGet (address : string).

(** The answers of the subgraph and of the price service. *)
Record World := mkWorld {
  graphql : string -> string -> option QueryResult;
  http_get : string -> option PriceMap
}.

Definition IO (A : Type) : Type := World -> list Request -> list Request * option A.

Definition ret {A} (a : A) : IO A := fun _ log => (log, Some a).

Definition bind {A B} (m : IO A) (k : A -> IO B) : IO B :=
  fun w log =>
    match m w log with
    | (log', Some a) => k a w log'
    | (log', None) => (log', None)
    end.

Declare Scope io_scope.
Delimit Scope io_scope with io.
Notation "x <- m ;; k" := (bind m (fun x => k))
  (at level 61, m at next level, right associativity) : io_scope.
Open Scope io_scope.

(** [await request(endpoint, query)]; an undefined endpoint rejects. *)
Definition request (endpoint : option string) (query : string) : IO QueryResult :=
  fun w log =>
    match endpoint with
    | Some e => (log ++ [GraphQLRequest e query], graphql w e query)
    | None => (log, None)
    end.

(** [(await superagent.get(address)).body.coins] *)
Definition superagent_get (address : string) : IO PriceMap :=
  fun w log => (log ++ [HttpGet address], http_get w address).

(** ** The records *)

Section Records.
Context {cfg : LendingConfig} {oracle : VaultOracle} {fmt : ChainFormat}.

(** Lines 92-103. *)
Definition lendingPoolRecord (chain : string) (prices : PriceMap)
    (poolInfo : LendingReservePool) : Pool :=
  let tokenInfo := getTokenInfo chain prices (underlyingTokenAddress poolInfo) in
  {| pool := toLowerCase (eTokenAddress poolInfo +++ "-" +++ chain);
     pchain := formatChain chain;
     pproject := project;
     psymbol := option_map symbol tokenInfo;
     underlyingTokens := [underlyingTokenAddress poolInfo];
     poolMeta := "Lending Pool";
     tvlUsd := getLendPoolTvl poolInfo tokenInfo;
     apyBase := getLendPoolApy poolInfo |}.

(** Lines 114-123. *)
Definition farmPoolRecord (chain : string) (poolInfo : VeloPoolInfo) : Pool :=
  {| pool := toLowerCase (vp_pair poolInfo +++ "-" +++ chain);
     pchain := formatChain chain;
     pproject := project;
     psymbol := Some (template_opt (token0_symbol poolInfo) +++ "-"
                      +++ template_opt (token1_symbol poolInfo));
     underlyingTokens := [vp_token0 poolInfo; vp_token1 poolInfo];
     poolMeta := "Leveraged Yield Farming";
     tvlUsd := vp_tvlUsd poolInfo;
     apyBase := baseApy poolInfo |}.

(** What lines 91-126 compute once both answers are in. *)
Definition assemblePools (chain : string) (queryResult : QueryResult) (prices : PriceMap)
    : list Pool :=
  let pools := push_all (lendingPoolRecord chain prices)
                 (filteredLendingPools queryResult) [] in
  let parsedFarmPoolsInfo :=
    getAllVeloPoolInfo (unpausedFarmingPools queryResult) chain prices
      (lendingReservePools queryResult) in
  let pools := push_all (farmPoolRecord chain) parsedFarmPoolsInfo pools in
  filter keepFinite pools.

(** The coins of the price request (lines 76-80). *)
Definition requestCoins (chain : string) (queryResult : QueryResult) : list string :=
  coins chain (getTokenAddresses (filteredLendingPools queryResult) (vaults queryResult)).

(** [getPoolsData] (lines 19-127). *)
Definition getPoolsData : IO (list Pool) :=
  let chain := "optimism" in
  queryResult <- request (subgraphUrls chain) graphQuery ;;
  prices <- superagent_get (prices_url (requestCoins chain queryResult)) ;;
  ret (assemblePools chain queryResult prices).

End Records.

(** ** Lemmas *)

Lemma push_all_app {A} (f : A -> Pool) (xs : list A) (pools : list Pool) :
  push_all f xs pools = pools ++ map f xs.
Proof.
  unfold push_all. revert pools. induction xs as [|x xs IH]; intros pools; simpl.
  - now rewrite app_nil_r.
  - rewrite IH. now rewrite <- app_assoc.
Qed.

Section Props.
Context {cfg : LendingConfig} {oracle : VaultOracle} {fmt : ChainFormat}.

Lemma assemblePools_split (chain : string) (q : QueryResult) (prices : PriceMap) :
  assemblePools chain q prices =
  filter keepFinite (map (lendingPoolRecord chain prices) (filteredLendingPools q)) ++
  filter keepFinite (map (farmPoolRecord chain)
    (getAllVeloPoolInfo (unpausedFarmingPools q) chain prices (lendingReservePools q))).
Proof. unfold assemblePools. rewrite !push_all_app. simpl. apply filter_app. Qed.

Lemma In_assemblePools (chain : string) (q : QueryResult) (prices : PriceMap) (p : Pool) :
  In p (assemblePools chain q prices) <->
  keepFinite p = true /\
  ((exists r, In r (filteredLendingPools q) /\ p = lendingPoolRecord chain prices r) \/
   (exists v, In v (unpausedFarmingPools q) /\
      p = farmPoolRecord chain (veloPoolInfo chain prices (lendingReservePools q) v))).
Proof.
  rewrite assemblePools_split, in_app_iff, !filter_In.
  unfold getAllVeloPoolInfo. rewrite map_map, !in_map_iff.
  split.
  - intros [[[r [<- Hr]] Hk] | [[v [<- Hv]] Hk]]; split; eauto.
  - intros [Hk [[r [Hr ->]] | [v [Hv ->]]]]; [left | right]; eauto.
Qed.

(** Every successful run made the two requests, in order, and returned
    the assembled pools of the two answers. *)
Lemma getPoolsData_inv (w : World) (log log' : list Request) (out : list Pool) :
  getPoolsData w log = (log', Some out) ->
  exists endpoint q prices,
    subgraphUrls "optimism" = Some endpoint /\
    graphql w endpoint graphQuery = Some q /\
    http_get w (prices_url (requestCoins "optimism" q)) = Some prices /\
    log' = log ++ [GraphQLRequest endpoint graphQuery;
                   HttpGet (prices_url (requestCoins "optimism" q))] /\
    out = assemblePools "optimism" q prices.
Proof.
  unfold getPoolsData, bind, request, superagent_get, ret. simpl.
  destruct (graphql w _ graphQuery) as [q |] eqn:Eq; [| discriminate].
  destruct (http_get w _) as [prices |] eqn:Ep; [| discriminate].
  intros H. injection H as <- <-. do 3 eexists.
  repeat split; eauto. now rewrite <- app_assoc.
Qed.

(** The result of a run, by cases on the two answers. *)
Lemma getPoolsData_result (w : World) (log : list Request) :
  snd (getPoolsData w log) =
  match graphql w extrasubgraph_url graphQuery with
  | None => None
  | Some q =>
      match http_get w (prices_url (requestCoins "optimism" q)) with
      | None => None
      | Some prices => Some (assemblePools "optimism" q prices)
      end
  end.
Proof.
  unfold getPoolsData, bind, request, superagent_get, ret. simpl.
  destruct (graphql w extrasubgraph_url graphQuery); [| reflexivity].
  simpl. destruct (http_get w _); reflexivity.
Qed.

(** ** Theorems *)

(** C1 (safety): every record [getPoolsData] returns has a finite [tvlUsd] and
    a finite [apyBase] (spec sections 3, 4.4 and 8). *)
Theorem getPoolsData_finite (w : World) (log log' : list Request) (out : list Pool) :
  getPoolsData w log = (log', Some out) ->
  Forall (fun p => isFinite (tvlUsd p) = true /\ isFinite (apyBase p) = true) out.
Proof.
  intros H. destruct (getPoolsData_inv w log log' out H) as (e & q & prices & _ & _ & _ & _ & ->).
  apply Forall_forall. intros p Hp. apply In_assemblePools in Hp as [Hk _].
  unfold keepFinite in Hk. bool_to_prop. auto.
Qed.

(** C2 (safety): no record comes from a paused vault: every vault record of
    the output is the record of a vault of the answer that is not paused
    and whose [totalLp] is a BigNumber greater than zero. *)
Theorem getPoolsData_vaults_unpaused (w : World) (log log' : list Request) (out : list Pool)
    (p : Pool) :
  getPoolsData w log = (log', Some out) -> In p out ->
  poolMeta p = "Leveraged Yield Farming" ->
  exists e q v, graphql w e graphQuery = Some q /\ In v (vaults q) /\
    paused v = false /\ farmingPoolPositive v = true /\
    pool p = toLowerCase (pair v +++ "-optimism").
Proof.
  intros H Hp Hm. destruct (getPoolsData_inv w log log' out H) as (e & q & prices & _ & Eq & _ & _ & ->).
  apply In_assemblePools in Hp as [_ [[r [_ ->]] | [v [Hv ->]]]]; [discriminate |].
  apply In_unpausedFarmingPools in Hv as (Hv & Hpos & Hpaused).
  exists e, q, v. repeat split; assumption.
Qed.

(** C3 (safety): every lending record of the output is the record of a
    reserve of the answer whose [totalLiquidity] is a BigNumber greater
    than zero; a reserve of zero liquidity gives no record. *)
Theorem getPoolsData_lending_positive (w : World) (log log' : list Request) (out : list Pool)
    (p : Pool) :
  getPoolsData w log = (log', Some out) -> In p out ->
  poolMeta p = "Lending Pool" ->
  exists e q r, graphql w e graphQuery = Some q /\ In r (lendingReservePools q) /\
    lendingPoolPositive r = true /\
    pool p = toLowerCase (eTokenAddress r +++ "-optimism").
Proof.
  intros H Hp Hm. destruct (getPoolsData_inv w log log' out H) as (e & q & prices & _ & Eq & _ & _ & ->).
  apply In_assemblePools in Hp as [_ [[r [Hr ->]] | [v [_ ->]]]]; [| discriminate].
  apply In_filteredLendingPools in Hr as [Hr Hpos].
  exists e, q, r. repeat split; assumption.
Qed.

(** C4 (functional): with both answers in, [getPoolsData] makes exactly two
    requests, the subgraph query and then one price request naming all the
    coins, and returns the finite lending records in source order followed
    by the finite vault records in source order. *)
Theorem getPoolsData_success (w : World) (q : QueryResult) (prices : PriceMap) :
  graphql w extrasubgraph_url graphQuery = Some q ->
  http_get w (prices_url (requestCoins "optimism" q)) = Some prices ->
  getPoolsData w [] =
  ([GraphQLRequest extrasubgraph_url graphQuery;
    HttpGet (prices_url (requestCoins "optimism" q))],
   Some (filter keepFinite (map (lendingPoolRecord "optimism" prices) (filteredLendingPools q)) ++
         filter keepFinite (map (farmPoolRecord "optimism")
           (getAllVeloPoolInfo (unpausedFarmingPools q) "optimism" prices
              (lendingReservePools q))))).
Proof.
  intros Hq Hp. unfold getPoolsData, bind, request, superagent_get, ret. simpl.
  rewrite Hq. simpl. rewrite Hp. now rewrite assemblePools_split.
Qed.

(** C5 (error): a failed subgraph request fails the whole operation, after
    that one request: the price service is never called. *)
Theorem getPoolsData_subgraph_failure (w : World) :
  graphql w extrasubgraph_url graphQuery = None ->
  getPoolsData w [] =
  ([GraphQLRequest extrasubgraph_url graphQuery], None).
Proof. intros H. unfold getPoolsData, bind, request. simpl. now rewrite H. Qed.

(** C6 (error): a failed price request fails the whole operation: no partial
    result is returned. *)
Theorem getPoolsData_price_failure (w : World) (q : QueryResult) :
  graphql w extrasubgraph_url graphQuery = Some q ->
  http_get w (prices_url (requestCoins "optimism" q)) = None ->
  snd (getPoolsData w []) = None.
Proof.
  intros Hq Hp. unfold getPoolsData, bind, request, superagent_get. simpl.
  rewrite Hq. simpl. now rewrite Hp.
Qed.

(** C8 (invariant): every pool key of the output is lower-case. *)
Theorem getPoolsData_keys_lower (w : World) (log log' : list Request) (out : list Pool) :
  getPoolsData w log = (log', Some out) ->
  Forall (fun p => is_lower (pool p) = true) out.
Proof.
  intros H. destruct (getPoolsData_inv w log log' out H) as (e & q & prices & _ & _ & _ & _ & ->).
  apply Forall_forall. intros p Hp.
  apply In_assemblePools in Hp as [_ [[r [_ ->]] | [v [_ ->]]]]; apply toLowerCase_is_lower.
Qed.

(** C7 (functional): every token of every output record was named in the one
    price request, with the chain prefix. *)
Theorem getPoolsData_tokens_requested (w : World) (log log' : list Request) (out : list Pool)
    (p : Pool) (a : string) :
  getPoolsData w log = (log', Some out) -> In p out -> In a (underlyingTokens p) ->
  exists e q, graphql w e graphQuery = Some q /\
    In ("optimism:" +++ a) (requestCoins "optimism" q).
Proof.
  intros H Hp Ha. destruct (getPoolsData_inv w log log' out H) as (e & q & prices & _ & Eq & _ & _ & ->).
  exists e, q. split; [exact Eq |]. unfold requestCoins, coins. simpl. apply in_map.
  apply getTokenAddresses_In.
  apply In_assemblePools in Hp as [_ [[r [Hr ->]] | [v [Hv ->]]]]; simpl in Ha.
  - destruct Ha as [<- | []]. left. eauto.
  - apply In_unpausedFarmingPools in Hv as [Hv _]. right. exists v.
    split; [exact Hv |]. destruct Ha as [<- | [<- | []]]; auto.
Qed.


End Props.

End Aggregator.

(** ** A concrete run *)

Module Sample.
Import Aggregator.

#[export] Instance sample_cfg : LendingConfig := {| compounding_periods := 12 |}.
#[export] Instance sample_oracle : VaultOracle :=
  {| unwrapUniswapLPs := fun _ share _ _ => Some (share, share);
     farmingApy := fun _ => JNum 5 |}.
#[export] Instance sample_fmt : ChainFormat := {| formatChain := fun s => s |}.

Definition sample_reserves : list LendingReservePool :=
  [mkReserve "r1" "1" "0xTok" "0xETok" "1000000000000000000000" "50" "0.01";
   mkReserve "r2" "2" "0xDry" "0xEDry" "0" "0" "0.02"].

Definition sample_vaults : list Vault :=
  [mkVault "v1" "1" "0" "0" "0xPair" "0xTok" "0xUsd" false false false true "3" "10" "1" "9";
   mkVault "v2" "2" "0" "0" "0xPaused" "0xTok" "0xUsd" false true false true "3" "10" "1" "9"].

Definition first_reserve (rs : list LendingReservePool) : LendingReservePool :=
  hd (mkReserve "" "" "" "" "" "" "") rs.

Definition sample_world : World :=
  mkWorld (fun _ _ => Some (mkQueryResult sample_vaults sample_reserves))
          (fun _ => Some (priceMap_of_list
             [("optimism:0xtok", mkTokenInfo "TOK" 2 18);
              ("optimism:0xusd", mkTokenInfo "USD" 1 6)])).

Definition sample_run := getPoolsData sample_world [].
Definition sample_log : list Request := fst sample_run.
Definition sample_out : list Pool := match snd sample_run with Some o => o | None => [] end.
Definition sample_pool (i : nat) : Pool :=
  nth i sample_out (mkPool "" "" "" None [] "" JNaN JNaN).

Definition sample_query : QueryResult := mkQueryResult sample_vaults sample_reserves.
Definition sample_prices : PriceMap :=
  priceMap_of_list [("optimism:0xtok", mkTokenInfo "TOK" 2 18);
                    ("optimism:0xusd", mkTokenInfo "USD" 1 6)].

Lemma getPoolsData_finite_witness :
  Forall (fun p => isFinite (tvlUsd p) = true /\ isFinite (apyBase p) = true) sample_out.
Proof. apply (getPoolsData_finite sample_world [] sample_log). vm_compute. reflexivity. Defined.

Lemma getPoolsData_vaults_unpaused_witness :
  exists e q v, graphql sample_world e graphQuery = Some q /\ In v (vaults q) /\
    paused v = false /\ farmingPoolPositive v = true /\
    pool (sample_pool 1) = toLowerCase (pair v +++ "-optimism").
Proof.
  apply (getPoolsData_vaults_unpaused sample_world [] sample_log sample_out).
  - vm_compute. reflexivity.
  - vm_compute. right. left. reflexivity.
  - vm_compute. reflexivity.
Defined.

Lemma getPoolsData_lending_positive_witness :
  exists e q r, graphql sample_world e graphQuery = Some q /\ In r (lendingReservePools q) /\
    lendingPoolPositive r = true /\
    pool (sample_pool 0) = toLowerCase (eTokenAddress r +++ "-optimism").
Proof.
  apply (getPoolsData_lending_positive sample_world [] sample_log sample_out).
  - vm_compute. reflexivity.
  - vm_compute. left. reflexivity.
  - vm_compute. reflexivity.
Defined.

Lemma getPoolsData_success_witness :
  getPoolsData sample_world [] =
  ([GraphQLRequest extrasubgraph_url graphQuery;
    HttpGet (prices_url (requestCoins "optimism" sample_query))],
   Some (filter keepFinite (map (lendingPoolRecord "optimism" sample_prices)
                                (filteredLendingPools sample_query)) ++
         filter keepFinite (map (farmPoolRecord "optimism")
           (getAllVeloPoolInfo (unpausedFarmingPools sample_query) "optimism" sample_prices
              (lendingReservePools sample_query))))).
Proof. apply getPoolsData_success; reflexivity. Defined.

Definition failing_world : World := mkWorld (fun _ _ => None) (fun _ => None).
Definition unpriced_world : World :=
  mkWorld (fun _ _ => Some sample_query) (fun _ => None).

Lemma getPoolsData_subgraph_failure_witness :
  getPoolsData failing_world [] = ([GraphQLRequest extrasubgraph_url graphQuery], None).
Proof. apply getPoolsData_subgraph_failure. reflexivity. Defined.

Lemma getPoolsData_price_failure_witness : snd (getPoolsData unpriced_world []) = None.
Proof. apply (getPoolsData_price_failure _ sample_query); reflexivity. Defined.

Lemma getPoolsData_keys_lower_witness :
  Forall (fun p => is_lower (pool p) = true) sample_out.
Proof. apply (getPoolsData_keys_lower sample_world [] sample_log). vm_compute. reflexivity. Defined.

Lemma getPoolsData_tokens_requested_witness :
  exists e q, graphql sample_world e graphQuery = Some q /\
    In ("optimism:" +++ "0xUsd") (requestCoins "optimism" q).
Proof.
  apply (getPoolsData_tokens_requested sample_world [] sample_log sample_out (sample_pool 1)).
  - vm_compute. reflexivity.
  - vm_compute. right. left. reflexivity.
  - vm_compute. right. left. reflexivity.
Defined.


(** A vault whose tokens are unpriced is still emitted, under the symbol
    ["undefined-undefined"] that the template literal of line 118 builds. *)
Example farm_symbol_undefined :
  psymbol (farmPoolRecord "optimism"
             (veloPoolInfo "optimism" (priceMap_of_list []) sample_reserves
                (hd (mkVault "" "" "" "" "" "" "" false false false false "" "" "" "")
                    sample_vaults)))
  = Some "undefined-undefined".
Proof. reflexivity. Qed.

(** The vault engine receives every reserve (line 110) but only the kept
    reserves' tokens are priced (line 62): the zero-liquidity reserve's
    token [0xDry] is not in the price request. *)
Example unpriced_debt_reserve :
  In (nth 1 sample_reserves (first_reserve [])) (lendingReservePools sample_query) /\
  ~ In ("optimism:" +++ "0xDry") (requestCoins "optimism" sample_query).
Proof. split; [right; left; reflexivity | vm_compute; intuition discriminate]. Qed.

End Sample.
