(* ===== verification/Output.v ===== *)
(** * The output of [getPoolsData]

    Properties of the array [getPoolsData] resolves to (index.js lines
    91-126), stated over the model of [Aggregator]: a bound on the number
    of records, completeness of the lending and of the vault records
    (every kept reserve and every unpaused kept vault whose numbers are
    finite is emitted), distinct pool keys, and the boundary case of an
    empty subgraph answer. *)

From Stdlib Require Import QArith String List Bool Lia.
From S2P Require Import Prelude JsNum Subgraph Prices Lending Vault Aggregator.
Import ListNotations.
Import Subgraph Prices Lending VaultEngine Aggregator.
Open Scope nat_scope.

Module Output.

(** ** Lemmas *)

Lemma NoDup_map_filter {A B} (f : A -> B) (g : A -> bool) (l : list A) :
  List.NoDup (map f l) -> List.NoDup (map f (filter g l)).
Proof.
  induction l as [|x l IH]; simpl; [tauto |].
  intros H. inversion H as [|y ys Hx Hl]; subst.
  destruct (g x); simpl; [constructor |]; auto.
  intros Hin. apply Hx. apply in_map_iff in Hin as [z [<- Hz]].
  apply filter_In in Hz as [Hz _]. now apply in_map.
Qed.

Section Props.
Context {cfg : LendingConfig} {oracle : VaultOracle} {fmt : ChainFormat}.

(** The pool keys of the records before the final filter. *)
Definition candidateKeys (q : QueryResult) : list string :=
  map (fun r => toLowerCase (eTokenAddress r +++ "-optimism")) (filteredLendingPools q) ++
  map (fun v => toLowerCase (pair v +++ "-optimism")) (unpausedFarmingPools q).

Lemma assemblePools_keys (q : QueryResult) (prices : PriceMap) :
  map pool (map (lendingPoolRecord "optimism" prices) (filteredLendingPools q) ++
            map (farmPoolRecord "optimism")
              (getAllVeloPoolInfo (unpausedFarmingPools q) "optimism" prices
                 (lendingReservePools q)))
  = candidateKeys q.
Proof.
  unfold candidateKeys, getAllVeloPoolInfo. rewrite map_app, !map_map. reflexivity.
Qed.

(** ** Theorems *)



(** The boundary case behind the empty-coin-list finding: on an empty
    subgraph answer the adaptor still
    makes the price request, with an empty coin list, and returns no
    record (or rejects if that request fails). *)
Theorem getPoolsData_empty_answer (w : World) :
  graphql w extrasubgraph_url graphQuery = Some (mkQueryResult [] []) ->
  getPoolsData w [] =
  ([GraphQLRequest extrasubgraph_url graphQuery;
    HttpGet "https://coins.llama.fi/prices/current/"],
   match http_get w "https://coins.llama.fi/prices/current/" with
   | Some _ => Some []
   | None => None
   end).
Proof.
  intros Hq. unfold getPoolsData, bind, request, superagent_get, ret. simpl.
  rewrite Hq. simpl. destruct (http_get w _); reflexivity.
Qed.

(** C17 (bounds): the output has at most one record per kept reserve and per
    unpaused kept vault of the answer. *)
Theorem getPoolsData_length (w : World) (log log' : list Request) (out : list Pool) :
  getPoolsData w log = (log', Some out) ->
  exists q, graphql w extrasubgraph_url graphQuery = Some q /\
    length out <= length (filteredLendingPools q) + length (unpausedFarmingPools q).
Proof.
  intros H. destruct (getPoolsData_inv w log log' out H) as (e & q & prices & Ee & Eq & _ & _ & ->).
  exists q. injection Ee as <-. split; [exact Eq |].
  rewrite assemblePools_split, length_app. unfold getAllVeloPoolInfo.
  pose proof (filter_length_le keepFinite (map (lendingPoolRecord "optimism" prices)
                                              (filteredLendingPools q))) as H1.
  pose proof (filter_length_le keepFinite (map (farmPoolRecord "optimism")
     (map (veloPoolInfo "optimism" prices (lendingReservePools q)) (unpausedFarmingPools q)))) as H2.
  rewrite !length_map in H1. rewrite !length_map in H2. lia.
Qed.

(** C16 (functional) (completeness): every kept reserve whose record has
    finite numbers appears in the output. *)
Theorem getPoolsData_lending_complete (w : World) (q : QueryResult) (prices : PriceMap)
    (r : LendingReservePool) :
  graphql w extrasubgraph_url graphQuery = Some q ->
  http_get w (prices_url (requestCoins "optimism" q)) = Some prices ->
  In r (filteredLendingPools q) ->
  keepFinite (lendingPoolRecord "optimism" prices r) = true ->
  match snd (getPoolsData w []) with
  | Some out => In (lendingPoolRecord "optimism" prices r) out
  | None => False
  end.
Proof.
  intros Hq Hp Hr Hk. rewrite getPoolsData_result, Hq, Hp.
  apply In_assemblePools. split; [exact Hk |]. left. eauto.
Qed.

(** C15 (invariant): when the kept reserves' eToken keys and the unpaused
    vaults' pair keys are all distinct, no two output records share a pool
    key. *)
Theorem getPoolsData_keys_distinct (w : World) (q : QueryResult) (out : list Pool) :
  graphql w extrasubgraph_url graphQuery = Some q ->
  snd (getPoolsData w []) = Some out ->
  List.NoDup (candidateKeys q) ->
  List.NoDup (map pool out).
Proof.
  intros Hq Ho Hd. rewrite getPoolsData_result, Hq in Ho.
  destruct (http_get w _) as [prices |]; [| discriminate].
  injection Ho as <-. rewrite assemblePools_split, <- filter_app.
  apply NoDup_map_filter. now rewrite assemblePools_keys.
Qed.

(** C19 (functional): every unpaused kept vault whose record has finite
    numbers appears in the output (the counterpart of C16 for the vault
    records). *)
Theorem getPoolsData_vault_complete (w : World) (q : QueryResult) (prices : PriceMap) (v : Vault) :
  graphql w extrasubgraph_url graphQuery = Some q ->
  http_get w (prices_url (requestCoins "optimism" q)) = Some prices ->
  In v (unpausedFarmingPools q) ->
  keepFinite (farmPoolRecord "optimism" (veloPoolInfo "optimism" prices (lendingReservePools q) v))
    = true ->
  match snd (getPoolsData w []) with
  | Some out => In (farmPoolRecord "optimism"
                      (veloPoolInfo "optimism" prices (lendingReservePools q) v)) out
  | None => False
  end.
Proof.
  intros Hq Hp Hv Hk. rewrite getPoolsData_result, Hq, Hp.
  apply In_assemblePools. split; [exact Hk |]. right. eauto.
Qed.

End Props.

(** ** Witnesses *)

Module Witness.
Import Sample.






Lemma getPoolsData_length_witness :
  exists q, graphql sample_world extrasubgraph_url graphQuery = Some q /\
    length sample_out <= length (filteredLendingPools q) + length (unpausedFarmingPools q).
Proof. apply (getPoolsData_length sample_world [] sample_log). vm_compute. reflexivity. Defined.

Lemma getPoolsData_lending_complete_witness :
  match snd (getPoolsData sample_world []) with
  | Some out => In (lendingPoolRecord "optimism" sample_prices (first_reserve sample_reserves)) out
  | None => False
  end.
Proof.
  apply (getPoolsData_lending_complete _ sample_query).
  - reflexivity.
  - reflexivity.
  - vm_compute. left. reflexivity.
  - vm_compute. reflexivity.
Defined.

Lemma getPoolsData_keys_distinct_witness : List.NoDup (map pool sample_out).
Proof.
  apply (getPoolsData_keys_distinct sample_world sample_query).
  - reflexivity.
  - vm_compute. reflexivity.
  - vm_compute. repeat constructor; simpl; intuition discriminate.
Defined.

Lemma getPoolsData_vault_complete_witness :
  match snd (getPoolsData sample_world []) with
  | Some out => In (farmPoolRecord "optimism"
                      (veloPoolInfo "optimism" sample_prices sample_reserves
                         (hd (mkVault "" "" "" "" "" "" "" false false false false "" "" "" "")
                             sample_vaults))) out
  | None => False
  end.
Proof.
  apply (getPoolsData_vault_complete _ sample_query).
  - reflexivity.
  - reflexivity.
  - vm_compute. left. reflexivity.
  - vm_compute. reflexivity.
Defined.

End Witness.

End Output.
