(* ===== verification/EventLoop.v ===== *)
(** * The shared [pools] array and the asynchronous [forEach] (index.js lines 22, 91-126)

    The record assembly of [getPoolsData] as JavaScript runs it: [pools]
    (line 22) is an array on the heap, mutated by [pools.push] from two
    [forEach] loops, the second with an [async] callback (line 113) whose
    promises nobody awaits, and [return pools.filter(...)] (line 126) copies
    it into a fresh array.  The heap is an stdpp [gmap] from locations to
    arrays.  An [async] function body is the list of its synchronous
    segments, one [await] between two of them: a call runs the first
    segment at once and leaves the rest on the FIFO microtask queue, which
    the event loop drains ([drain]) only after the running code returns.

    [getPoolsData] suspends at three [await]s (lines 52, 83 and 106); the
    rest of the program runs there, modelled as any state transformer
    that keeps every allocated array and changes only the arrays it can
    reach ([respects]), as in the frame rule of Hoare logic.

    The theorems show that this run refines the functional [assemblePools]
    of [Aggregator] whatever the rest of the program does at the awaits
    (the callback of line 113 has no [await], so every push happens before
    line 126 reads the array, and [pools] is reachable from nowhere else),
    and that it changes no array of the caller's beyond what the rest of
    the program changes, resolving with a fresh one.  An example shows
    what an [await] before the push would do. *)

From Stdlib Require Import String List Bool QArith.
From S2P Require Import Prelude JsNum Subgraph Prices Lending Vault Aggregator.
From stdpp Require Import base gmap list.
Import ListNotations.
Import Subgraph Prices Lending VaultEngine.

Module EventLoop.

(** A heap location, and the heap of arrays of pool records. *)
Abbreviation loc := positive.
Abbreviation Heap := (gmap loc (list Aggregator.Pool)).

(** The synchronous code between two [await]s, and an [async] body. *)
Definition Segment := Heap -> Heap.
Definition AsyncBody := list Segment.

(** The heap and the pending microtasks (suspended [async] bodies), oldest
    first. *)
Record JsState := mkJsState {
  heap : Heap;
  microtasks : list AsyncBody;
}.

Definition state_upd_heap (f : Heap -> Heap) (st : JsState) : JsState :=
  mkJsState (f (heap st)) (microtasks st).

(** An array literal: a fresh location holding [a] ([const pools = []],
    line 22; the copy [pools.filter(...)] makes, line 126). *)
Definition alloc (a : list Aggregator.Pool) (st : JsState) : loc * JsState :=
  let l := stdpp.base.fresh (dom (heap st)) in (l, state_upd_heap (<[l := a]>) st).

(** [pools.push(p)] (lines 94 and 114).  The model's arrays are always
    allocated before a push, so the [None] branch is never taken. *)
Definition pool_push (l : loc) (p : Aggregator.Pool) : Segment := fun h =>
  match h !! l with
  | Some a => <[l := a ++ [p]]> h
  | None => h
  end.

(** Calling an [async] function: its first segment runs now, the rest (if
    any) waits behind the queued microtasks. *)
Definition run_segments (b : AsyncBody) (st : JsState) : JsState :=
  match b with
  | [] => st
  | seg :: rest =>
      mkJsState (seg (heap st))
        (match rest with [] => microtasks st | _ => microtasks st ++ [rest] end)
  end.

(** [xs.forEach(f)] with a synchronous callback (line 91). *)
Definition forEach {A} (f : A -> Segment) (xs : list A) (st : JsState) : JsState :=
  fold_left (fun st x => state_upd_heap (f x) st) xs st.

(** [xs.forEach(async (x) => ...)] (line 113): each call starts its body and
    its promise is dropped. *)
Definition forEach_async {A} (f : A -> AsyncBody) (xs : list A) (st : JsState) : JsState :=
  fold_left (fun st x => run_segments (f x) st) xs st.

(** The event loop: run queued microtasks, oldest first, at most [fuel]
    segments. *)
Fixpoint drain (fuel : nat) (st : JsState) : JsState :=
  match fuel with
  | O => st
  | S n =>
      match microtasks st with
      | [] => st
      | b :: q => drain n (run_segments b (mkJsState (heap st) q))
      end
  end.

(** The [await]s of [getPoolsData]: the subgraph request (line 52), the
    price request (line 83) and [getAllVeloPoolInfo] (line 106). *)
Inductive Await := AwaitSubgraph | AwaitPrices | AwaitVaults.

(** [st'] keeps every array of [st] and differs from it only on the
    locations of [S]. *)
Definition preserves (S : gset loc) (st st' : JsState) : Prop :=
  (dom (heap st) ⊆ dom (heap st')) /\
  (forall l, l ∉ S -> l ∈ dom (heap st) -> heap st' !! l = heap st !! l).

(** What the rest of the program may do while [getPoolsData] is suspended:
    allocate, run microtasks and mutate the arrays of [reach], the ones it
    holds a reference to. *)
Definition respects (reach : gset loc) (others : Await -> JsState -> JsState) : Prop :=
  forall a st, preserves reach st (others a st).

Section Assembly.
Context {cfg : LendingConfig} {oracle : VaultOracle} {fmt : ChainFormat}.

(** The callback of line 91. *)
Definition lendingCallback (chain : string) (prices : PriceMap) (pools : loc)
    (poolInfo : LendingReservePool) : Segment :=
  pool_push pools (Aggregator.lendingPoolRecord chain prices poolInfo).

(** The [async] callback of line 113: no [await], one segment. *)
Definition farmCallback (chain : string) (pools : loc) (poolInfo : VeloPoolInfo) : AsyncBody :=
  [pool_push pools (Aggregator.farmPoolRecord chain poolInfo)].

(** Lines 22 and 52-126 on the heap, once [queryResult] and [prices] are
    known; [others] runs at each [await].  The location of the array
    [getPoolsData] resolves with, and the state after the return. *)
Definition getPoolsData_js (others : Await -> JsState -> JsState) (chain : string)
    (queryResult : QueryResult) (prices : PriceMap) (st : JsState) : option (loc * JsState) :=
  let '(pools, st) := alloc [] st in
  let st := others AwaitSubgraph st in
  let st := others AwaitPrices st in
  let st := forEach (lendingCallback chain prices pools) (filteredLendingPools queryResult) st in
  let st := others AwaitVaults st in
  let parsedFarmPoolsInfo :=
    getAllVeloPoolInfo (unpausedFarmingPools queryResult) chain prices
      (lendingReservePools queryResult) in
  let st := forEach_async (farmCallback chain pools) parsedFarmPoolsInfo st in
  match heap st !! pools with
  | Some a => Some (alloc (List.filter Aggregator.keepFinite a) st)
  | None => None
  end.

End Assembly.

(** ** Lemmas *)

Lemma forEach_push {A} (l : loc) (f : A -> Aggregator.Pool) (xs : list A) (st : JsState)
    (a : list Aggregator.Pool) :
  heap st !! l = Some a ->
  forEach (fun x => pool_push l (f x)) xs st =
  mkJsState (<[l := a ++ map f xs]> (heap st)) (microtasks st).
Proof.
  unfold forEach. revert st a.
  induction xs as [|x xs IH]; intros [h mt] a Ha; cbn [fold_left map heap microtasks] in *.
  - now rewrite app_nil_r, insert_id.
  - unfold state_upd_heap at 2, pool_push at 2; cbn [heap microtasks]. rewrite Ha.
    rewrite (IH _ (a ++ [f x])) by apply lookup_insert_eq; cbn.
    now rewrite insert_insert_eq, <- app_assoc.
Qed.

Lemma forEach_async_single {A} (g : A -> Segment) (xs : list A) (st : JsState) :
  forEach_async (fun x => [g x]) xs st = forEach g xs st.
Proof.
  unfold forEach_async, forEach. revert st.
  induction xs as [|x xs IH]; intros st; cbn; [reflexivity | apply IH].
Qed.

Lemma fresh_dom_insert (m : Heap) (k : loc) (v : list Aggregator.Pool) :
  stdpp.base.fresh (dom (<[k := v]> m)) <> k /\ stdpp.base.fresh (dom (<[k := v]> m)) ∉ dom m.
Proof.
  pose proof (is_fresh (dom (<[k := v]> m))) as H. rewrite dom_insert_L in H |- *.
  split.
  - intros E. rewrite E in H. apply H. set_solver.
  - intros Hin. apply H. set_solver.
Qed.

Lemma preserves_refl (S : gset loc) (st : JsState) : preserves S st st.
Proof. split; [reflexivity | auto]. Qed.

Lemma preserves_trans (S1 S2 : gset loc) (st1 st2 st3 : JsState) :
  preserves S1 st1 st2 -> preserves S2 st2 st3 -> preserves (S1 ∪ S2) st1 st3.
Proof.
  intros [D1 E1] [D2 E2]. split; [set_solver |]. intros l Hl Hd.
  rewrite E2, E1 by set_solver. reflexivity.
Qed.

Lemma preserves_weaken (S S' : gset loc) (st st' : JsState) :
  S ⊆ S' -> preserves S st st' -> preserves S' st st'.
Proof. intros HS [D E]. split; [exact D |]. intros l Hl. apply E. set_solver. Qed.

Lemma preserves_lookup (S : gset loc) (st st' : JsState) (l : loc) (a : list Aggregator.Pool) :
  preserves S st st' -> l ∉ S -> heap st !! l = Some a -> heap st' !! l = Some a.
Proof. intros [_ E] Hl Ha. rewrite E; [exact Ha | exact Hl | eapply elem_of_dom_2; exact Ha]. Qed.

Lemma preserves_insert (l : loc) (v : list Aggregator.Pool) (st : JsState) :
  preserves {[l]} st (state_upd_heap (<[l := v]>) st).
Proof.
  split; cbn; [rewrite dom_insert_L; set_solver |].
  intros k Hk _. apply lookup_insert_ne. set_solver.
Qed.

Lemma alloc_preserves (a : list Aggregator.Pool) (st : JsState) :
  preserves ∅ st (snd (alloc a st)).
Proof.
  split; cbn; [rewrite dom_insert_L; set_solver |].
  intros k _ Hk. apply lookup_insert_ne. intros E. apply (is_fresh (dom (heap st))).
  rewrite E. exact Hk.
Qed.

Section AssemblyLemmas.
Context {cfg : LendingConfig} {oracle : VaultOracle} {fmt : ChainFormat}.

(** The records pushed into [pools], before the final filter. *)
Definition pushedRecords (chain : string) (q : QueryResult) (prices : PriceMap)
    : list Aggregator.Pool :=
  map (Aggregator.lendingPoolRecord chain prices) (filteredLendingPools q) ++
  map (Aggregator.farmPoolRecord chain)
    (getAllVeloPoolInfo (unpausedFarmingPools q) chain prices (lendingReservePools q)).

(** The run up to line 126: [pools], fresh, ends up holding every pushed
    record, and everything else is changed only on [reach]. *)
Lemma getPoolsData_js_run (others : Await -> JsState -> JsState) (reach : gset loc)
    (chain : string) (q : QueryResult) (prices : PriceMap) (st : JsState) :
  respects reach others -> reach ⊆ dom (heap st) ->
  exists p st1,
    (p ∉ dom (heap st)) /\ preserves (reach ∪ {[p]}) st st1 /\
    heap st1 !! p = Some (pushedRecords chain q prices) /\
    getPoolsData_js others chain q prices st =
    Some (alloc (List.filter Aggregator.keepFinite (pushedRecords chain q prices)) st1).
Proof.
  intros Ho Hr. unfold getPoolsData_js.
  destruct (alloc [] st) as [p st0] eqn:Ha.
  assert (p ∉ dom (heap st)) as Hp by (injection Ha as <- _; apply is_fresh).
  assert (preserves ∅ st st0) as P0 by (pose proof (alloc_preserves [] st) as P; now rewrite Ha in P).
  assert (heap st0 !! p = Some []) as L0 by (injection Ha as <- <-; apply lookup_insert_eq).
  assert (p ∉ reach) as Hpr by set_solver.
  pose proof (Ho AwaitSubgraph st0) as P1. pose proof (Ho AwaitPrices (others AwaitSubgraph st0)) as P2.
  pose proof (preserves_lookup _ _ _ _ _ P2 Hpr (preserves_lookup _ _ _ _ _ P1 Hpr L0)) as L2.
  unfold lendingCallback.
  rewrite (forEach_push p (Aggregator.lendingPoolRecord chain prices) (filteredLendingPools q) _ [] L2).
  cbn [app].
  set (st3 := mkJsState _ _).
  pose proof (Ho AwaitVaults st3) as P4.
  assert (heap st3 !! p = Some (map (Aggregator.lendingPoolRecord chain prices) (filteredLendingPools q)))
    as L3 by apply lookup_insert_eq.
  pose proof (preserves_lookup _ _ _ _ _ P4 Hpr L3) as L4.
  unfold farmCallback. rewrite forEach_async_single.
  rewrite (forEach_push p (Aggregator.farmPoolRecord chain) _ _ _ L4). cbn [heap].
  rewrite lookup_insert_eq.
  eexists p, _. split; [exact Hp |]. split; [| split; [| reflexivity]].
  2: apply lookup_insert_eq.
  apply (preserves_weaken ((((∅ ∪ reach) ∪ reach) ∪ {[p]}) ∪ reach ∪ {[p]})); [set_solver |].
  eapply preserves_trans; [| apply preserves_insert].
  eapply preserves_trans; [| exact P4].
  eapply preserves_trans; [| apply preserves_insert].
  eapply preserves_trans; [| exact P2].
  eapply preserves_trans; [exact P0 | exact P1].
Qed.

Lemma assemblePools_pushed (chain : string) (q : QueryResult) (prices : PriceMap) :
  Aggregator.assemblePools chain q prices = List.filter Aggregator.keepFinite (pushedRecords chain q prices).
Proof.
  unfold Aggregator.assemblePools, pushedRecords. rewrite !Aggregator.push_all_app. reflexivity.
Qed.

End AssemblyLemmas.

(** ** Theorems *)

Section Props.
Context {cfg : LendingConfig} {oracle : VaultOracle} {fmt : ChainFormat}.
Context (others : Await -> JsState -> JsState) (reach : gset loc).
Hypothesis others_respects : respects reach others.

(** C20 (refinement): run on the heap as JavaScript runs it, whatever the
    rest of the program does at the three [await]s (as long as it only
    mutates arrays it holds, ones that exist when [getPoolsData] starts),
    lines 22 and 52-126 resolve with a fresh array holding exactly
    [assemblePools] (the functional model of [Aggregator]), distinct from
    [pools], which holds every pushed record: the [async] callback of line
    113 has no [await], so its pushes all happen before line 126 copies
    [pools]. *)
Theorem getPoolsData_js_refines (chain : string) (q : QueryResult) (prices : PriceMap)
    (st : JsState) :
  reach ⊆ dom (heap st) ->
  exists pools r st',
    getPoolsData_js others chain q prices st = Some (r, st') /\
    heap st' !! pools = Some (pushedRecords chain q prices) /\
    heap st' !! r = Some (Aggregator.assemblePools chain q prices) /\
    r <> pools.
Proof.
  intros Hr. rewrite assemblePools_pushed.
  destruct (getPoolsData_js_run others reach chain q prices st others_respects Hr)
    as (p & st1 & _ & _ & Lp & ->).
  assert (p ∈ dom (heap st1)) as Hd by (eapply elem_of_dom_2; exact Lp).
  assert (stdpp.base.fresh (dom (heap st1)) <> p) as Hne
    by (intros E; apply (is_fresh (dom (heap st1))); rewrite E; exact Hd).
  exists p. do 2 eexists. split; [reflexivity |]; cbn.
  rewrite lookup_insert_ne by congruence. rewrite lookup_insert_eq. auto.
Qed.

(** C21 (invariant): the run changes no array of the caller's except
    through the rest of the program (the arrays of [reach]), and the array
    it resolves with is fresh: it aliases nothing the caller already
    holds. *)
Theorem getPoolsData_js_frame (chain : string) (q : QueryResult) (prices : PriceMap)
    (st st' : JsState) (r : loc) :
  reach ⊆ dom (heap st) ->
  getPoolsData_js others chain q prices st = Some (r, st') ->
  (r ∉ dom (heap st)) /\
  (forall l a, l ∉ reach -> heap st !! l = Some a -> heap st' !! l = Some a).
Proof.
  intros Hr. destruct (getPoolsData_js_run others reach chain q prices st others_respects Hr)
    as (p & st1 & Hp & P & _ & ->).
  intros [= <- <-]. destruct P as [D E]. split.
  - intros Hin. apply (is_fresh (dom (heap st1))). set_solver.
  - intros l a Hl Ha. cbn.
    assert (l ∈ dom (heap st)) as Hd by (eapply elem_of_dom_2; exact Ha).
    rewrite lookup_insert_ne.
    + rewrite E; [exact Ha | set_solver | exact Hd].
    + intros Ef. apply (is_fresh (dom (heap st1))). rewrite Ef. set_solver.
Qed.

End Props.

(** ** Witnesses *)

Module Witness.
Import Sample.

(** A caller that already holds two arrays, at locations 1 and 2; the rest
    of the program holds the first and pushes into it at every [await]. *)
Definition caller_state : JsState :=
  mkJsState {[1%positive := [sample_pool 0]; 2%positive := [sample_pool 1]]} [].

Definition caller_reach : gset loc := {[1%positive]}.

Definition caller_others (a : Await) (st : JsState) : JsState :=
  state_upd_heap (pool_push 1 (sample_pool 0)) st.

Lemma caller_others_respects : respects caller_reach caller_others.
Proof.
  intros a [h mt]. unfold caller_others, caller_reach, state_upd_heap, pool_push; cbn.
  destruct (h !! 1%positive) as [l |].
  - exact (preserves_insert 1 (l ++ [sample_pool 0]) (mkJsState h mt)).
  - apply preserves_refl.
Qed.

Definition caller_run : loc * JsState :=
  default (1%positive, caller_state)
    (getPoolsData_js caller_others "optimism" sample_query sample_prices caller_state).

Lemma getPoolsData_js_refines_witness :
  exists pools r st',
    getPoolsData_js caller_others "optimism" sample_query sample_prices caller_state
      = Some (r, st') /\
    heap st' !! pools = Some (pushedRecords "optimism" sample_query sample_prices) /\
    heap st' !! r = Some (Aggregator.assemblePools "optimism" sample_query sample_prices) /\
    r <> pools.
Proof.
  apply (getPoolsData_js_refines caller_others caller_reach caller_others_respects).
  apply (bool_decide_unpack (caller_reach ⊆ dom (heap caller_state))). vm_compute. reflexivity.
Defined.

Lemma getPoolsData_js_frame_witness :
  (fst caller_run ∉ dom (heap caller_state)) /\
  (forall l a, l ∉ caller_reach -> heap caller_state !! l = Some a ->
               heap (snd caller_run) !! l = Some a).
Proof.
  apply (getPoolsData_js_frame caller_others caller_reach caller_others_respects
           "optimism" sample_query sample_prices caller_state (snd caller_run) (fst caller_run)).
  - apply (bool_decide_unpack (caller_reach ⊆ dom (heap caller_state))). vm_compute. reflexivity.
  - vm_compute. reflexivity.
Defined.

(** A callback that awaits before it pushes: [async (p) => { await x;
    pools.push(p); }]. *)
Definition awaiting_push (l : loc) (p : Aggregator.Pool) : AsyncBody := [fun h => h; pool_push l p].

(** Why line 113 is safe only because its callback does not await: with an
    [await] before the push, the array is still empty when the loop returns
    (when line 126 would copy it); the push happens on a later turn of the
    event loop. *)
Example awaiting_push_deferred :
  let st0 := mkJsState {[1%positive := []]} [] in
  let st1 := forEach_async (awaiting_push 1) [sample_pool 0] st0 in
  heap st1 !! 1%positive = Some [] /\ heap (drain 1 st1) !! 1%positive = Some [sample_pool 0].
Proof. vm_compute. split; reflexivity. Qed.

End Witness.

End EventLoop.
